(** * scopus.scopus_search: the ScopusSearch class

    A shallow embedding of [scopus/scopus_search.py] and the properties of
    its record mapper ([results]), identifier accessors ([get_eids], [EIDS])
    and cache-file naming ([__init__]).

    Python values are embedded as follows.
    - A [str] is the sequence of its Unicode code points.
    - The items held in [self._json] come from [json.loads]; they are values
      of the type [json] below.  A JSON number is held as a rational, which
      covers Python's [int] and every finite [float]; the non-standard
      literal NaN is not represented.
    - A [dict] is an association list in insertion order whose keys are
      pairwise distinct ([json.loads] keeps one binding per key).
    - Raising an exception is a result [Raise e]; [try ... except KeyError]
      is a match on that result. *)

From Stdlib Require Import List NArith ZArith QArith Bool String Ascii Lia.
Import ListNotations.
Close Scope Q_scope.
Local Open Scope string_scope.
Local Open Scope list_scope.
Local Open Scope N_scope.

(** ** Strings *)

Definition str := list N.

(** The [str] written as an ASCII literal in the source. *)
Definition lit (s : string) : str :=
  List.map N_of_ascii (list_ascii_of_string s).

Definition str_eqb (s t : str) : bool :=
  if list_eq_dec N.eq_dec s t then true else false.

(** ** Exceptions and results *)

Inductive exn : Type :=
| KeyError (key : str)
| TypeError
| AttributeError
| UnicodeEncodeError.

Inductive result (A : Type) : Type :=
| Ok (a : A)
| Raise (e : exn).
Arguments Ok {A} a.
Arguments Raise {A} e.

Definition bind {A B : Type} (m : result A) (f : A -> result B) : result B :=
  match m with
  | Ok a => f a
  | Raise e => Raise e
  end.

Declare Scope py_scope.
Delimit Scope py_scope with py.
Notation "x <- m ;; k" := (bind m (fun x => k))
  (at level 61, m at next level, right associativity) : py_scope.
Local Open Scope py_scope.

(** A list comprehension [[f x for x in l]] whose body may raise. *)
Fixpoint mapM {A B : Type} (f : A -> result B) (l : list A) : result (list B) :=
  match l with
  | [] => Ok []
  | x :: l' => y <- f x ;; ys <- mapM f l' ;; Ok (y :: ys)
  end.

(** ** JSON values as [json.loads] builds them *)

Unset Elimination Schemes.
Inductive json : Type :=
| JNull
| JBool (b : bool)
| JNum (q : Q)
| JStr (s : str)
| JList (l : list json)
| JObj (d : list (str * json)).
Set Elimination Schemes.


(** [d[k]] on the bindings of a dict. *)
Fixpoint lookup (k : str) (d : list (str * json)) : option json :=
  match d with
  | [] => None
  | (k', v) :: d' => if str_eqb k k' then Some v else lookup k d'
  end.

Definition Qbool (b : bool) : Q := if b then 1%Q else 0%Q.

Section Compare.

Variable eq : json -> json -> bool.

(** Two lists are equal when they have the same length and equal
    elements at each position. *)
Fixpoint list_eq (xs ys : list json) {struct xs} : bool :=
  match xs, ys with
  | [], [] => true
  | x :: xs', y :: ys' => eq x y && list_eq xs' ys'
  | _, _ => false
  end.

(** Every binding of [d] has an equal value under the same key in [e]. *)
Fixpoint submap (e d : list (str * json)) {struct d} : bool :=
  match d with
  | [] => true
  | (k, v) :: d' =>
      match lookup k e with
      | Some w => eq v w
      | None => false
      end && submap e d'
  end.

End Compare.

(** Python's [a == b] on values built by [json.loads]: [bool] is a
    subclass of [int] and compares by numeric value, lists compare
    element by element, dicts compare as finite maps. *)
Fixpoint py_eq (a b : json) {struct a} : bool :=
  match a, b with
  | JNull, JNull => true
  | JBool x, JBool y => Bool.eqb x y
  | JBool x, JNum q => Qeq_bool (Qbool x) q
  | JNum p, JBool y => Qeq_bool p (Qbool y)
  | JNum p, JNum q => Qeq_bool p q
  | JStr s, JStr t => str_eqb s t
  | JList xs, JList ys => list_eq py_eq xs ys
  | JObj d, JObj e =>
      (List.length d =? List.length e)%nat && submap py_eq e d
  | _, _ => false
  end.



(** [x in l] for a list [l]: some element equals [x]. *)
Definition py_in (x : json) (l : list json) : bool :=
  existsb (fun e => py_eq e x) l.

(** [v[k]] for a string key [k]. *)
Definition getitem (v : json) (k : str) : result json :=
  match v with
  | JObj d =>
      match lookup k d with
      | Some w => Ok w
      | None => Raise (KeyError k)
      end
  | _ => Raise TypeError
  end.

(** [v.get(k, default)]; only a dict has the method. *)
Definition get (v : json) (k : str) (default : json) : result json :=
  match v with
  | JObj d =>
      match lookup k d with
      | Some w => Ok w
      | None => Ok default
      end
  | _ => Raise AttributeError
  end.

(** The value [v.get(k)] of a dict. *)
Definition get_or (d : list (str * json)) (k : str) : json :=
  match lookup k d with
  | Some w => w
  | None => JNull
  end.

(** [for i in v]: the elements of a list, the characters of a str, the
    keys of a dict; anything else is not iterable. *)
Definition iter (v : json) : result (list json) :=
  match v with
  | JList l => Ok l
  | JStr s => Ok (List.map (fun c => JStr [c]) s)
  | JObj d => Ok (List.map (fun kv => JStr (fst kv)) d)
  | _ => Raise TypeError
  end.

Definition isinstance_list (v : json) : bool :=
  match v with
  | JList _ => true
  | _ => false
  end.

(** [sep.join(l)] on strings. *)
Fixpoint join (sep : str) (l : list str) : str :=
  match l with
  | [] => []
  | [s] => s
  | s :: l' => s ++ sep ++ join sep l'
  end.

Definition as_str (v : json) : result str :=
  match v with
  | JStr s => Ok s
  | _ => Raise TypeError
  end.

(** [sep.join(l)] on a list of values: every element must be a str. *)
Definition str_join (sep : str) (l : list json) : result str :=
  ss <- mapM as_str l ;; Ok (join sep ss).

(** ** The record mapper: [ScopusSearch.results] *)

(** The namedtuple [Document].  The three derived fields hold a str or
    [None]; every other field holds the value found in the item ([None]
    is [JNull]). *)
Record Document : Type := doc {
  eid : json;
  doi : json;
  pii : json;
  title : json;
  subtype : json;
  creator : json;
  authname : option str;
  authid : option str;
  afid : option str;
  coverDate : json;
  coverDisplayDate : json;
  publicationName : json;
  issn : json;
  source_id : json;
  aggregationType : json;
  volume : json;
  issueIdentifier : json;
  pageRange : json;
  citedby_count : json;
  openaccess : json
}.

(** Lines 47-50: the loop that deduplicates the list of authors. *)
Definition dedup_step (authors : list json) (i : json) : list json :=
  if negb (py_in i authors) then authors ++ [i] else authors.

Definition dedup (l : list json) : list json :=
  fold_left dedup_step l [].

(** Lines 56-59: the body of the loop over the authors, which gives the
    string appended to [affs]. *)
Definition aff_group (auth : json) : result str :=
  aff <- get auth (lit "afid") (JList []) ;;
  let aff := if negb (isinstance_list aff) then JList [aff] else aff in
  l <- iter aff ;;
  ids <- mapM (fun d => getitem d (lit "$")) l ;;
  str_join (lit "-") ids.

(** Lines 52 and 53: [";".join([d[k] for d in authors])]. *)
Definition joined (k : str) (authors : list json) : result str :=
  vals <- mapM (fun d => getitem d k) authors ;;
  str_join (lit ";") vals.

(** Lines 61-62: an empty string becomes [None]. *)
Definition none_if_empty (s : str) : option str :=
  if str_eqb s (lit "") then None else Some s.

(** Lines 51-62: the three strings extracted from the deduplicated
    authors. *)
Definition extract (authors : list json)
  : result (option str * option str * option str) :=
  authname <- joined (lit "authname") authors ;;
  authid <- joined (lit "authid") authors ;;
  affs <- mapM aff_group authors ;;
  let afid := join (lit ";") affs in
  Ok (Some authname, Some authid, none_if_empty afid).

(** Lines 46-62: the body of the [try]. *)
Definition derive (item : json)
  : result (option str * option str * option str) :=
  a <- getitem item (lit "author") ;;
  l <- iter a ;;
  extract (dedup l).

(** Lines 45-66: [try ... except KeyError]; any other exception goes on. *)
Definition derive_or_blank (item : json)
  : result (option str * option str * option str) :=
  match derive item with
  | Ok t => Ok t
  | Raise (KeyError _) => Ok (None, None, None)
  | Raise e => Raise e
  end.

(** Lines 67-80: the call of [doc]; the arguments are evaluated in the order
    they are written. *)
Definition new_doc (item : json) (authname authid afid : option str)
  : result Document :=
  eid <- getitem item (lit "eid") ;;
  doi <- get item (lit "prism:doi") JNull ;;
  pii <- get item (lit "pii") JNull ;;
  title <- getitem item (lit "dc:title") ;;
  subtype <- get item (lit "subtype") JNull ;;
  creator <- get item (lit "dc:creator") JNull ;;
  coverDate <- get item (lit "prism:coverDate") JNull ;;
  coverDisplayDate <- get item (lit "prism:coverDisplayDate") JNull ;;
  publicationName <- get item (lit "prism:publicationName") JNull ;;
  issn <- get item (lit "prism:issn") JNull ;;
  source_id <- get item (lit "source-id") JNull ;;
  aggregationType <- get item (lit "prism:aggregationType") JNull ;;
  volume <- get item (lit "prism:volume") JNull ;;
  issueIdentifier <- get item (lit "prism:issueIdentifier") JNull ;;
  pageRange <- get item (lit "prism:pageRange") JNull ;;
  citedby_count <- get item (lit "citedby-count") JNull ;;
  openaccess <- getitem item (lit "openaccess") ;;
  Ok (doc eid doi pii title subtype creator authname authid afid
          coverDate coverDisplayDate publicationName issn source_id
          aggregationType volume issueIdentifier pageRange
          citedby_count openaccess).

(** Lines 45-80: one turn of the loop over [self._json], up to the value
    appended to [out]. *)
Definition document (item : json) : result Document :=
  t <- derive_or_blank item ;;
  let '(authname, authid, afid) := t in
  new_doc item authname authid afid.

(** A record with other values in the three derived fields. *)
Definition with_derived (r : Document) (an ai af : option str) : Document :=
  doc (eid r) (doi r) (pii r) (title r) (subtype r) (creator r) an ai af
      (coverDate r) (coverDisplayDate r) (publicationName r) (issn r)
      (source_id r) (aggregationType r) (volume r) (issueIdentifier r)
      (pageRange r) (citedby_count r) (openaccess r).

(** The keys that [new_doc] reads with a subscript, in the order it reads
    them, and the first of them that a dict lacks. *)
Definition required : list str :=
  [lit "eid"; lit "dc:title"; lit "openaccess"].

Definition first_missing (d : list (str * json)) : option str :=
  find (fun k => match lookup k d with None => true | Some _ => false end)
       required.

(** Lines 44-82: the loop, with [out] as its accumulator.  An exception
    that leaves the loop body leaves [results]. *)
Fixpoint results_loop (items : list json) (out : list Document)
  : result (list Document) :=
  match items with
  | [] => Ok out
  | item :: rest =>
      new <- document item ;;
      results_loop rest (out ++ [new])
  end.

(** The state of a [ScopusSearch] object. *)
Record ScopusSearch : Type := {
  query : str;
  _json : list json
}.

Definition results (self : ScopusSearch) : result (list Document) :=
  results_loop (_json self) [].

(** ** The identifier accessors *)

(** Line 123: [[d['eid'] for d in self._json]]. *)
Definition get_eids (self : ScopusSearch) : result (list json) :=
  mapM (fun d => getitem d (lit "eid")) (_json self).

(** [warnings.warn(text, category)] adds a warning to the ones issued so
    far. *)
Inductive category : Type := DeprecationWarning.

Definition warnings := list (str * category).

Definition warn (text : str) (c : category) (w : warnings) : warnings :=
  w ++ [(text, c)].

Definition EIDS_text : str :=
  lit "Outdated property, will be removed in a future release.  "
  ++ lit "Please use get_eids() instead.  For details see "
  ++ lit "https://scopus.readthedocs.io/en/latest/tips.html#"
  ++ lit "migration-guide-to-0-x-to-1-x.".

(** Lines 13-24: the property [EIDS], run with the warnings issued so far. *)
Definition EIDS (self : ScopusSearch) (w : warnings)
  : result (list json) * warnings :=
  let w := warn EIDS_text DeprecationWarning w in
  (get_eids self, w).

(** ** The name of the cache file: [hashlib.md5(query.encode('utf8'))] *)

(** [s.encode('utf8')]: the bytes of each code point; a surrogate cannot
    be encoded.  A [str] holds no code point above [0x10FFFF]; the model
    refuses such a number the same way. *)
Definition utf8_char (c : N) : result (list N) :=
  if c <? 0x80 then Ok [c]
  else if c <? 0x800 then
    Ok [N.lor 0xC0 (N.shiftr c 6); N.lor 0x80 (N.land c 0x3F)]
  else if (0xD800 <=? c) && (c <=? 0xDFFF) then Raise UnicodeEncodeError
  else if c <? 0x10000 then
    Ok [N.lor 0xE0 (N.shiftr c 12);
        N.lor 0x80 (N.land (N.shiftr c 6) 0x3F);
        N.lor 0x80 (N.land c 0x3F)]
  else if c <? 0x110000 then
    Ok [N.lor 0xF0 (N.shiftr c 18);
        N.lor 0x80 (N.land (N.shiftr c 12) 0x3F);
        N.lor 0x80 (N.land (N.shiftr c 6) 0x3F);
        N.lor 0x80 (N.land c 0x3F)]
  else Raise UnicodeEncodeError.

Definition encode_utf8 (s : str) : result (list N) :=
  bs <- mapM utf8_char s ;; Ok (List.concat bs).

Module MD5.

(** The MD5 message digest (RFC 1321) on 32-bit words held in [N]. *)

Definition w32 (x : N) : N := x mod 2 ^ 32.
Definition add32 (x y : N) : N := w32 (x + y).
Definition not32 (x : N) : N := N.lxor (w32 x) 0xFFFFFFFF.
Definition rotl32 (x n : N) : N :=
  N.lor (w32 (N.shiftl x n)) (N.shiftr (w32 x) (32 - n)).

Definition K : list N :=
  [ 0xd76aa478; 0xe8c7b756; 0x242070db; 0xc1bdceee;
    0xf57c0faf; 0x4787c62a; 0xa8304613; 0xfd469501;
    0x698098d8; 0x8b44f7af; 0xffff5bb1; 0x895cd7be;
    0x6b901122; 0xfd987193; 0xa679438e; 0x49b40821;
    0xf61e2562; 0xc040b340; 0x265e5a51; 0xe9b6c7aa;
    0xd62f105d; 0x02441453; 0xd8a1e681; 0xe7d3fbc8;
    0x21e1cde6; 0xc33707d6; 0xf4d50d87; 0x455a14ed;
    0xa9e3e905; 0xfcefa3f8; 0x676f02d9; 0x8d2a4c8a;
    0xfffa3942; 0x8771f681; 0x6d9d6122; 0xfde5380c;
    0xa4beea44; 0x4bdecfa9; 0xf6bb4b60; 0xbebfbc70;
    0x289b7ec6; 0xeaa127fa; 0xd4ef3085; 0x04881d05;
    0xd9d4d039; 0xe6db99e5; 0x1fa27cf8; 0xc4ac5665;
    0xf4292244; 0x432aff97; 0xab9423a7; 0xfc93a039;
    0x655b59c3; 0x8f0ccc92; 0xffeff47d; 0x85845dd1;
    0x6fa87e4f; 0xfe2ce6e0; 0xa3014314; 0x4e0811a1;
    0xf7537e82; 0xbd3af235; 0x2ad7d2bb; 0xeb86d391 ].

Definition shifts : list N :=
  [ 7; 12; 17; 22; 7; 12; 17; 22; 7; 12; 17; 22; 7; 12; 17; 22;
    5; 9; 14; 20; 5; 9; 14; 20; 5; 9; 14; 20; 5; 9; 14; 20;
    4; 11; 16; 23; 4; 11; 16; 23; 4; 11; 16; 23; 4; 11; 16; 23;
    6; 10; 15; 21; 6; 10; 15; 21; 6; 10; 15; 21; 6; 10; 15; 21 ].

(** The message followed by the byte [0x80], zero bytes up to 56 modulo
    64, and the length in bits as 8 little-endian bytes. *)
Definition le_bytes (n : nat) (x : N) : list N :=
  List.map (fun i => N.shiftr x (8 * N.of_nat i) mod 256) (seq 0 n).

Definition pad (m : list N) : list N :=
  let len := List.length m in
  let zeros := ((64 + 55 - len mod 64) mod 64)%nat in
  m ++ [0x80] ++ repeat 0 zeros
    ++ le_bytes 8 ((8 * N.of_nat len) mod 2 ^ 64).

Definition blocks (m : list N) : list (list N) :=
  List.map (fun i => firstn 64 (skipn (64 * i) m))
           (seq 0 (List.length m / 64)).

(** The [g]-th little-endian word of a block. *)
Definition word (block : list N) (g : nat) : N :=
  let b i := nth (4 * g + i) block 0 in
  b 0%nat + N.shiftl (b 1%nat) 8 + N.shiftl (b 2%nat) 16
    + N.shiftl (b 3%nat) 24.

Definition state : Type := N * N * N * N.

Definition round (block : list N) (st : state) (i : nat) : state :=
  let '(a, b, c, d) := st in
  let '(f, g) :=
    if (i <? 16)%nat then
      (N.lor (N.land b c) (N.land (not32 b) d), i)
    else if (i <? 32)%nat then
      (N.lor (N.land d b) (N.land (not32 d) c), ((5 * i + 1) mod 16)%nat)
    else if (i <? 48)%nat then
      (N.lxor (N.lxor b c) d, ((3 * i + 5) mod 16)%nat)
    else
      (N.lxor c (N.lor b (not32 d)), ((7 * i) mod 16)%nat) in
  let f := add32 (add32 (add32 f a) (nth i K 0)) (word block g) in
  (d, add32 b (rotl32 f (nth i shifts 0)), b, c).

Definition compress (st : state) (block : list N) : state :=
  let '(a0, b0, c0, d0) := st in
  let '(a, b, c, d) := fold_left (round block) (seq 0 64) st in
  (add32 a0 a, add32 b0 b, add32 c0 c, add32 d0 d).

Definition init : state :=
  (0x67452301, 0xefcdab89, 0x98badcfe, 0x10325476).

(** [hashlib.md5(m).digest()]: 16 bytes. *)
Definition digest (m : list N) : list N :=
  let '(a, b, c, d) := fold_left compress (blocks (pad m)) init in
  le_bytes 4 a ++ le_bytes 4 b ++ le_bytes 4 c ++ le_bytes 4 d.

Definition hex_digit (n : N) : N :=
  if n <? 10 then 48 + n else 87 + n.

(** [hashlib.md5(m).hexdigest()]: two lower-case digits for each byte. *)
Definition hexdigest (m : list N) : str :=
  flat_map (fun b => [hex_digit (b / 16); hex_digit (b mod 16)])
           (digest m).

End MD5.

(** The code points that [encode('utf8')] accepts: all but the
    surrogates. *)
Definition is_scalar (c : N) : bool :=
  (c <? 0xD800) || ((0xDFFF <? c) && (c <? 0x110000)).

(** The characters [0]-[9] and [a]-[f]. *)
Definition is_hex (c : N) : bool :=
  ((48 <=? c) && (c <=? 57)) || ((97 <=? c) && (c <=? 102)).

(** [os.path.join(a, b)] of [posixpath]. *)
Definition startswith_sep (s : str) : bool :=
  match s with
  | c :: _ => c =? 47
  | [] => false
  end.

Definition endswith_sep (s : str) : bool := startswith_sep (rev s).

Definition path_join (a b : str) : str :=
  if startswith_sep b then b
  else if match a with [] => true | _ => endswith_sep a end then a ++ b
  else a ++ lit "/" ++ b.

(** Lines 110-111: [qfile].  [config_dir] is the value of
    [config.get('Directories', 'ScopusSearch')]. *)
Definition qfile (config_dir : str) (query : str) : result str :=
  bs <- encode_utf8 query ;;
  Ok (path_join config_dir (MD5.hexdigest bs)).

(** ** Retrieval: [Search.__init__] and [ScopusSearch.__init__] *)

Module Search.

(** Modelled from the spec: the errors of the retrieval gateway
    (section 7). *)
Inductive error : Type :=
| ResultSetTooLargeError
| TransportError
| MalformedResponseError.

(** Modelled from the spec: what the remote API answers to one page
    request (section 6): an envelope with the batch of items and the
    total result count, an envelope without the expected fields, or no
    answer. *)
Inductive response : Type :=
| Envelope (entries : list json) (total : N)
| Malformed
| NoAnswer.

(** Modelled from the spec: the remote API; url, query, offset, page
    size and view give the answer. *)
Definition remote : Type := str -> str -> N -> N -> str -> response.

(** Modelled from the spec: the cache directory (one item list per file
    path) and the offsets of the page requests sent so far. *)
Record world : Type := {
  files : list (str * list json);
  requests : list N
}.

(** Modelled from the spec: the content of the cache file at a path, if
    there is one. *)
Fixpoint read (path : str) (fs : list (str * list json))
  : option (list json) :=
  match fs with
  | [] => None
  | (p, c) :: fs' => if str_eqb path p then Some c else read path fs'
  end.

(** Modelled from the spec: the cache file at a path is replaced as a
    whole. *)
Definition write (path : str) (c : list json) (fs : list (str * list json))
  : list (str * list json) :=
  (path, c) :: filter (fun f => negb (str_eqb path (fst f))) fs.

(** Modelled from the spec: a retrieval gives the item list, or fails, or
    has not ended. *)
Inductive outcome : Type :=
| Loaded (items : list json)
| Failed (e : error)
| Running.

(** Modelled from the spec: the pages after the first; one request per
    turn, at the next offset, until the items received number at least
    [total].  [fuel] bounds the number of turns; [Running] is a loop that
    has not ended. *)
Fixpoint pages (api : remote) (url query : str) (count : N) (view : str)
    (fuel : nat) (offset total : N) (acc : list json) (reqs : list N)
  : outcome * list N :=
  if total <=? N.of_nat (List.length acc) then (Loaded acc, reqs)
  else
    match fuel with
    | O => (Running, reqs)
    | S fuel' =>
        match api url query offset count view with
        | Envelope entries _ =>
            pages api url query count view fuel' (offset + count)
                  total (acc ++ entries) (reqs ++ [offset])
        | Malformed => (Failed MalformedResponseError, reqs ++ [offset])
        | NoAnswer => (Failed TransportError, reqs ++ [offset])
        end
    end.

(** Modelled from the spec: [Search.__init__] of [scopus.classes], which
    is not among the sources; section 4.1 of the specification gives its
    contract.  A cache entry is returned as it is unless [refresh];
    otherwise the first page is requested, a total above [max_entries]
    is an error raised before any further page, the other pages follow,
    and the merged list is written to the cache file. *)
Definition __init__ (api : remote) (fuel : nat)
    (query filepath url : str) (refresh : bool)
    (max_entries count start : N) (view : str) (w : world)
  : outcome * world :=
  match (if refresh then None else read filepath (files w)) with
  | Some items => (Loaded items, w)
  | None =>
      let reqs := requests w ++ [start] in
      match api url query start count view with
      | NoAnswer => (Failed TransportError, Build_world (files w) reqs)
      | Malformed =>
          (Failed MalformedResponseError, Build_world (files w) reqs)
      | Envelope entries total =>
          if max_entries <? total then
            (Failed ResultSetTooLargeError, Build_world (files w) reqs)
          else
            match pages api url query count view fuel (start + count)
                        total entries reqs with
            | (Loaded items, reqs') =>
                (Loaded items,
                 Build_world (write filepath items (files w)) reqs')
            | (o, reqs') => (o, Build_world (files w) reqs')
            end
      end
  end.

End Search.

(** What a call of the constructor does: it builds the object, or an
    exception leaves it, or the retrieval fails, or the paging has not
    ended within the fuel. *)
Inductive constructed : Type :=
| Built (self : ScopusSearch)
| Raised (e : exn)
| Failed (e : Search.error)
| Running.

(** Lines 109-114: [ScopusSearch.__init__]. *)
Definition __init__ (config_dir : str) (api : Search.remote) (fuel : nat)
    (query : str) (refresh : bool) (w : Search.world)
  : constructed * Search.world :=
  match qfile config_dir query with
  | Raise e => (Raised e, w)
  | Ok qfile =>
      let url := lit "https://api.elsevier.com/content/search/scopus" in
      match Search.__init__ api fuel query qfile url refresh
                            5000 25 0 (lit "COMPLETE") w with
      | (Search.Loaded items, w') => (Built (Build_ScopusSearch query items), w')
      | (Search.Failed e, w') => (Failed e, w')
      | (Search.Running, w') => (Running, w')
      end
  end.

(** ** The summary: [ScopusSearch.__str__] *)

(** The decimal digits of a number, as [format] writes an [int]. *)
Fixpoint digits (u : Decimal.uint) : str :=
  match u with
  | Decimal.Nil => []
  | Decimal.D0 u => 48 :: digits u
  | Decimal.D1 u => 49 :: digits u
  | Decimal.D2 u => 50 :: digits u
  | Decimal.D3 u => 51 :: digits u
  | Decimal.D4 u => 52 :: digits u
  | Decimal.D5 u => 53 :: digits u
  | Decimal.D6 u => 54 :: digits u
  | Decimal.D7 u => 55 :: digits u
  | Decimal.D8 u => 56 :: digits u
  | Decimal.D9 u => 57 :: digits u
  end.

Definition str_of_nat (n : nat) : str := digits (Nat.to_uint n).

(** The separator ['\n    '] of line 119: a line feed and four spaces. *)
Definition line_sep : str := 10 :: lit "    ".

(** Lines 116-119: [__str__].  The arguments of [format] are evaluated in
    the order they are written; each [{}] of the format string is replaced
    by the argument of the same rank. *)
Definition __str__ (self : ScopusSearch) : result str :=
  eids <- get_eids self ;;
  let n := List.length eids in
  lines <- str_join line_sep eids ;;
  Ok (lit "Search " ++ query self ++ lit " yielded in " ++ str_of_nat n
        ++ lit " documents:" ++ line_sep ++ lines).

(** Strings with their MD5 digests: the test suite of RFC 1321 (appendix
    A.5), and three strings of one character that takes two, three and
    four bytes, with the digests [hashlib.md5] gives them. *)
Definition md5_vectors : list (str * str) :=
  [ (lit "", lit "d41d8cd98f00b204e9800998ecf8427e");
    (lit "a", lit "0cc175b9c0f1b6a831c399e269772661");
    (lit "abc", lit "900150983cd24fb0d6963f7d28e17f72");
    (lit "message digest", lit "f96b697d7cb7938d525a2f31aaf161d0");
    (lit "abcdefghijklmnopqrstuvwxyz",
     lit "c3fcd3d76192e4007dfb496cca67e13b");
    (lit "ABCDEFGHIJKLMNOPQRSTUVWXYZabcdefghijklmnopqrstuvwxyz0123456789",
     lit "d174ab98d277d9f5a5611c2c9f419d9f");
    (lit "1234567890123456789012345678901234567890"
       ++ lit "1234567890123456789012345678901234567890",
     lit "57edf4a22be3c955ac49da2e2107b67a");
    ([0xE9], lit "66ddcd97cfdeabb2f6fb8a999b4bc76f");
    ([0x20AC], lit "bca53fde466a76b7bee3e18997e94a7a");
    ([0x1F600], lit "2a02eac39d716a70ecf37579185927b6") ].

(** ** Notions used in the statements *)

(** The affiliation ids of an author: none without an ['afid'], the ['$']
    of each element of a list, the ['$'] of a single object. *)
Inductive affiliation_ids : json -> list str -> Prop :=
| ids_absent (d : list (str * json)) :
    lookup (lit "afid") d = None ->
    affiliation_ids (JObj d) []
| ids_list (d : list (str * json)) (affs : list json) (ids : list str) :
    lookup (lit "afid") d = Some (JList affs) ->
    Forall2 (fun a id => getitem a (lit "$") = Ok (JStr id)) affs ids ->
    affiliation_ids (JObj d) ids
| ids_single (d : list (str * json)) (v : json) (id : str) :
    lookup (lit "afid") d = Some v ->
    isinstance_list v = false ->
    getitem v (lit "$") = Ok (JStr id) ->
    affiliation_ids (JObj d) [id].

(** The mapping of the whole list delivers the record of every item that
    has one. *)
Definition maps_rest_of_batch (self : ScopusSearch) : Prop :=
  exists recs, results self = Ok recs /\
    forall it r, In it (_json self) -> document it = Ok r -> In r recs.

(** An author entry with which the extraction goes through: a dict with
    a str under ['authname'] and under ['authid'] and with affiliation
    ids. *)
Definition clean_author (a : json) : Prop :=
  exists d n i ids,
    a = JObj d /\
    lookup (lit "authname") d = Some (JStr n) /\
    lookup (lit "authid") d = Some (JStr i) /\
    affiliation_ids a ids.

(** An item with which the mapping goes through: a dict with the three
    required keys and either no ['author'] or a list of clean authors. *)
Definition clean_item (it : json) : Prop :=
  exists d,
    it = JObj d /\ first_missing d = None /\
    (lookup (lit "author") d = None \/
     exists l, lookup (lit "author") d = Some (JList l) /\
               Forall clean_author l).

(** ** Sample data *)

Definition obj (kvs : list (string * json)) : json :=
  JObj (List.map (fun kv => (lit (fst kv), snd kv)) kvs).

Definition text (s : string) : json := JStr (lit s).

Definition affiliation (id : string) : json := obj [("$", text id)].

Definition author (name id : string) (affs : list string) : json :=
  obj [("authname", text name); ("authid", text id);
       ("afid", JList (List.map affiliation affs))].

Definition item (e t : string) (authors : list json) : json :=
  obj [("eid", text e); ("dc:title", text t); ("author", JList authors);
       ("openaccess", text "0")].

Definition search (items : list json) : ScopusSearch :=
  {| query := lit "AUTHOR-NAME(Smith)"; _json := items |}.

Definition two_items : list json :=
  [ item "2-s2.0-1" "First" [author "Smith J." "7001" ["10"; "20"]];
    item "2-s2.0-2" "Second" [author "Smith A." "7002" ["30"]] ].

Definition smith : json := author "Smith J." "7001" ["10"; "20"].
Definition jones : json := author "Jones K." "7002" ["30"; "40"].

Definition item_twice : json :=
  item "2-s2.0-3" "Third" [smith; jones; smith].

Definition item_pair : json := item "2-s2.0-4" "Fourth" [smith; jones].

(** An author whose ['afid'] is one object, not a list of them. *)
Definition brown : json :=
  obj [("authname", text "Brown L."); ("authid", text "7003");
       ("afid", affiliation "50")].

Definition item_single : json :=
  item "2-s2.0-5" "Fifth" [smith; brown; jones].

(** An item without the key ['author']. *)
Definition item_no_author : json :=
  obj [("eid", text "2-s2.0-6"); ("dc:title", text "Sixth");
       ("openaccess", text "1")].

(** An item whose author has an affiliation without the key ['$']. *)
Definition item_no_dollar : json :=
  item "2-s2.0-7" "Seventh"
       [obj [("authname", text "Green M."); ("authid", text "7004");
             ("afid", JList [obj [("@_fa", text "true")]])]].

(** An item without the key ['dc:title']. *)
Definition item_no_title : json :=
  obj [("eid", text "2-s2.0-8"); ("author", JList [smith]);
       ("openaccess", text "0")].

(** A remote API that reports 5001 results for every request. *)
Definition api_5001 : Search.remote :=
  fun _ _ _ _ _ => Search.Envelope [item_pair] 5001.

(** A remote API with the two items of [two_items] in all, on one page. *)
Definition api_two : Search.remote :=
  fun _ _ start _ _ =>
    if start =? 0 then Search.Envelope two_items 2
    else Search.Envelope [] 2.

Definition empty_world : Search.world :=
  {| Search.files := []; Search.requests := [] |}.

(** An author without the key ['afid']. *)
Definition white : json :=
  obj [("authname", text "White N."); ("authid", text "7005")].

Definition black : json :=
  obj [("authname", text "Black O."); ("authid", text "7006")].

(** An item whose author has [null] under ['authname']. *)
Definition item_null_name : json :=
  item "2-s2.0-9" "Ninth"
       [obj [("authname", JNull); ("authid", text "7007")]].

(** An item without the key ['eid']. *)
Definition item_no_eid : json :=
  obj [("dc:title", text "Tenth"); ("openaccess", text "0")].

(** An item with a number under ['eid']. *)
Definition item_numeric_eid : json :=
  obj [("eid", JNum 11%Q); ("dc:title", text "Eleventh");
       ("openaccess", text "0")].

(** One author and two authors without affiliations. *)
Definition item_white : json := item "2-s2.0-12" "Twelfth" [white].

Definition item_white_black : json :=
  item "2-s2.0-13" "Thirteenth" [white; black].

(** ** Results and list comprehensions *)

Section MapM.

Context {A B : Type} (f : A -> result B).

Lemma mapM_Ok_Forall2 (l : list A) (ys : list B) :
  mapM f l = Ok ys <-> Forall2 (fun x y => f x = Ok y) l ys.
Proof.
  revert ys. induction l as [|x l IH]; intros ys; simpl.
  - split.
    + intros H. injection H as <-. constructor.
    + intros H. inversion H. reflexivity.
  - split.
    + destruct (f x) as [y|e] eqn:Hx; simpl; [|discriminate].
      destruct (mapM f l) as [zs|e] eqn:Hl; simpl; [|discriminate].
      intros H. injection H as <-. constructor; [assumption|].
      apply IH. reflexivity.
    + intros H. inversion H as [|x' y l' zs Hx Hl]; subst.
      rewrite Hx. simpl. apply IH in Hl. rewrite Hl. reflexivity.
Qed.

Lemma mapM_app (l1 l2 : list A) :
  mapM f (l1 ++ l2)
  = (ys1 <- mapM f l1 ;; ys2 <- mapM f l2 ;; Ok (ys1 ++ ys2)).
Proof.
  induction l1 as [|x l1 IH]; simpl.
  - destruct (mapM f l2); reflexivity.
  - destruct (f x); simpl; [|reflexivity].
    rewrite IH. destruct (mapM f l1); simpl; [|reflexivity].
    destruct (mapM f l2); reflexivity.
Qed.

Lemma mapM_length (l : list A) (ys : list B) :
  mapM f l = Ok ys -> List.length ys = List.length l.
Proof.
  intros H. apply mapM_Ok_Forall2 in H.
  symmetry. eapply Forall2_length. eassumption.
Qed.

Lemma mapM_total (l : list A) :
  Forall (fun x => exists y, f x = Ok y) l -> exists ys, mapM f l = Ok ys.
Proof.
  induction 1 as [|x l [y Hy] _ [ys Hys]]; simpl.
  - eexists. reflexivity.
  - rewrite Hy, Hys. eexists. reflexivity.
Qed.

End MapM.

Lemma Forall2_nth_error {A B : Type} (R : A -> B -> Prop)
    (l : list A) (l' : list B) :
  Forall2 R l l' ->
  forall i x, nth_error l i = Some x ->
              exists y, nth_error l' i = Some y /\ R x y.
Proof.
  induction 1 as [|x y l l' Hxy _ IH]; intros [|i] z Hz; simpl in *;
    try discriminate.
  - injection Hz as <-. exists y. split; [reflexivity|assumption].
  - apply IH. assumption.
Qed.

(** The loop of [results] is the comprehension of [document] over the
    items, appended to what [out] holds. *)
Lemma results_loop_mapM (items : list json) (out : list Document) :
  results_loop items out = (ds <- mapM document items ;; Ok (out ++ ds)).
Proof.
  revert out. induction items as [|i items IH]; intros out; simpl.
  - rewrite app_nil_r. reflexivity.
  - destruct (document i) as [d|e]; simpl; [|reflexivity].
    rewrite IH. destruct (mapM document items) as [ds|e]; simpl.
    + rewrite <- app_assoc. reflexivity.
    + reflexivity.
Qed.

Lemma results_mapM (self : ScopusSearch) :
  results self = mapM document (_json self).
Proof.
  unfold results. rewrite results_loop_mapM.
  destruct (mapM document (_json self)); reflexivity.
Qed.

(** ** The record list follows the item list *)

(** C2: the list that [results] returns has the length of [self._json],
    and the record at each position is the one built from the item at the
    same position. *)
Theorem results_length_and_order (self : ScopusSearch) (recs : list Document) :
  results self = Ok recs ->
  List.length recs = List.length (_json self) /\
  Forall2 (fun item r => document item = Ok r) (_json self) recs /\
  forall i item, nth_error (_json self) i = Some item ->
    exists r, nth_error recs i = Some r /\ document item = Ok r.
Proof.
  rewrite results_mapM. intros H.
  split; [eapply mapM_length; eassumption|].
  apply mapM_Ok_Forall2 in H. split; [assumption|].
  apply Forall2_nth_error. assumption.
Qed.

Lemma results_length_and_order_witness :
  exists recs,
    results (search two_items) = Ok recs /\
    List.length recs = List.length (_json (search two_items)) /\
    List.map eid recs = [text "2-s2.0-1"; text "2-s2.0-2"].
Proof.
  eexists. split; [vm_compute; reflexivity|].
  split.
  - apply (results_length_and_order (search two_items)).
    vm_compute. reflexivity.
  - reflexivity.
Defined.

(** ** The identifier accessors *)

(** C7: [get_eids] returns the list of the ['eid'] values of the stored
    items, one for each item and in the stored order. *)
Theorem get_eids_stored_order (self : ScopusSearch) (es : list json) :
  Forall2 (fun d e => getitem d (lit "eid") = Ok e) (_json self) es ->
  get_eids self = Ok es /\
  List.length es = List.length (_json self) /\
  forall i d, nth_error (_json self) i = Some d ->
    exists e, nth_error es i = Some e /\ getitem d (lit "eid") = Ok e.
Proof.
  intros H. split; [apply mapM_Ok_Forall2; assumption|].
  split; [symmetry; eapply Forall2_length; eassumption|].
  apply Forall2_nth_error. assumption.
Qed.

Lemma get_eids_stored_order_witness :
  get_eids (search two_items) = Ok [text "2-s2.0-1"; text "2-s2.0-2"].
Proof.
  apply (get_eids_stored_order (search two_items)).
  repeat constructor.
Defined.

(** C8: [EIDS] returns what [get_eids] returns, and issues one
    deprecation warning. *)
Theorem EIDS_is_get_eids (self : ScopusSearch) (w : warnings) :
  fst (EIDS self w) = get_eids self /\
  snd (EIDS self w) = w ++ [(EIDS_text, DeprecationWarning)].
Proof.
  split; reflexivity.
Qed.

(** ** Equality of values *)



(** [True == 1], [1 == 1.0] written as fractions, and dicts that differ in
    the order of their keys are equal. *)
Example py_eq_bool_num : py_eq (JBool true) (JNum 1%Q) = true.
Proof. reflexivity. Qed.

Example py_eq_fractions : py_eq (JNum (2 # 2)%Q) (JNum 1%Q) = true.
Proof. reflexivity. Qed.

Example py_eq_key_order :
  py_eq (obj [("authid", text "7001"); ("authname", text "Smith J.")])
        (obj [("authname", text "Smith J."); ("authid", text "7001")])
  = true.
Proof. vm_compute. reflexivity. Qed.

Example py_eq_distinct : py_eq smith jones = false.
Proof. vm_compute. reflexivity. Qed.





(** ** Deduplication of the authors *)



Lemma py_in_false (x : json) (l : list json) :
  py_in x l = false <-> Forall (fun y => py_eq y x = false) l.
Proof.
  unfold py_in. induction l as [|y l IH]; simpl.
  - split; [constructor|reflexivity].
  - rewrite orb_false_iff, IH. split.
    + intros [H1 H2]. constructor; assumption.
    + intros H. inversion H. split; assumption.
Qed.

(** The loop only appends to [authors]. *)
Lemma dedup_loop_prefix (l acc : list json) :
  exists t, fold_left dedup_step l acc = acc ++ t /\ incl t l.
Proof.
  revert acc. induction l as [|i l IH]; intros acc; simpl.
  - exists []. rewrite app_nil_r. split; [reflexivity|apply incl_refl].
  - destruct (IH (dedup_step acc i)) as [t [Ht Hincl]].
    unfold dedup_step in *. destruct (negb (py_in i acc)).
    + exists (i :: t). rewrite Ht, <- app_assoc. split; [reflexivity|].
      intros x [<-|Hx]; [left; reflexivity|right; apply Hincl; assumption].
    + exists t. split; [assumption|].
      intros x Hx. right. apply Hincl. assumption.
Qed.

Lemma ForallOrdPairs_snoc {A : Type} (R : A -> A -> Prop)
    (l : list A) (x : A) :
  ForallOrdPairs R l -> Forall (fun y => R y x) l ->
  ForallOrdPairs R (l ++ [x]).
Proof.
  induction 1 as [|y l Hy _ IH]; intros Hx; simpl.
  - repeat constructor.
  - inversion Hx as [|? ? Hyx Hlx]; subst. constructor.
    + apply Forall_app. split; [assumption|]. constructor; [assumption|].
      constructor.
    + apply IH. assumption.
Qed.

Lemma dedup_loop_distinct (l acc : list json) :
  ForallOrdPairs (fun y z => py_eq y z = false) acc ->
  ForallOrdPairs (fun y z => py_eq y z = false)
                 (fold_left dedup_step l acc).
Proof.
  revert acc. induction l as [|i l IH]; intros acc Hacc; simpl;
    [assumption|].
  apply IH. unfold dedup_step. destruct (py_in i acc) eqn:Hin; simpl;
    [assumption|].
  apply ForallOrdPairs_snoc; [assumption|].
  apply py_in_false. assumption.
Qed.


(** The first entry stays at the front, and the entries after it that
    equal it are dropped. *)
Lemma dedup_loop_cons (l acc : list json) (x : json) :
  fold_left dedup_step l (x :: acc)
  = x :: fold_left dedup_step (filter (fun y => negb (py_eq x y)) l) acc.
Proof.
  revert acc. induction l as [|i l IH]; intros acc; simpl; [reflexivity|].
  unfold dedup_step at 2. unfold py_in. simpl.
  destruct (py_eq x i) eqn:Hxi; simpl.
  - apply IH.
  - fold (py_in i acc). unfold dedup_step at 3.
    destruct (py_in i acc); simpl; apply IH.
Qed.

Lemma dedup_cons (x : json) (l : list json) :
  dedup (x :: l) = x :: dedup (filter (fun y => negb (py_eq x y)) l).
Proof. apply (dedup_loop_cons l [] x). Qed.








(** ** The affiliation ids *)

Lemma str_join_strs (sep : str) (ss : list str) :
  str_join sep (List.map JStr ss) = Ok (join sep ss).
Proof.
  unfold str_join.
  replace (mapM as_str (List.map JStr ss)) with (Ok ss); [reflexivity|].
  symmetry. apply mapM_Ok_Forall2.
  induction ss; simpl; constructor; auto.
Qed.

Lemma mapM_ids (affs : list json) (ids : list str) :
  Forall2 (fun a id => getitem a (lit "$") = Ok (JStr id)) affs ids ->
  mapM (fun d => getitem d (lit "$")) affs = Ok (List.map JStr ids).
Proof.
  intros H. apply mapM_Ok_Forall2.
  induction H; simpl; constructor; auto.
Qed.

(** The string appended to [affs] for an author is its affiliation ids
    joined with ["-"]. *)
Lemma aff_group_ids (auth : json) (ids : list str) :
  affiliation_ids auth ids -> aff_group auth = Ok (join (lit "-") ids).
Proof.
  intros [d Hd|d affs ids' Hd Hids|d v id Hd Hv Hid]; unfold aff_group;
    simpl; rewrite Hd; simpl.
  - reflexivity.
  - rewrite (mapM_ids affs ids' Hids). simpl. apply str_join_strs.
  - rewrite Hv. simpl. rewrite Hid. reflexivity.
Qed.

Lemma mapM_aff_group (authors : list json) (idss : list (list str)) :
  Forall2 affiliation_ids authors idss ->
  mapM aff_group authors = Ok (List.map (join (lit "-")) idss).
Proof.
  intros H. apply mapM_Ok_Forall2.
  induction H as [|a ids authors idss Ha _ IH]; simpl; constructor.
  - apply aff_group_ids. assumption.
  - assumption.
Qed.

Lemma none_if_empty_spec (s : str) :
  none_if_empty s = match s with [] => None | _ => Some s end.
Proof. destruct s; reflexivity. Qed.

(** C5: [afid] is the affiliation ids of each author joined with ["-"],
    these groups joined with [";"] in the order of the deduplicated
    authors, and [None] when that string is empty. *)
Theorem afid_joined (it a : json) (l : list json) (nm ai : str)
    (idss : list (list str)) :
  getitem it (lit "author") = Ok a ->
  iter a = Ok l ->
  joined (lit "authname") (dedup l) = Ok nm ->
  joined (lit "authid") (dedup l) = Ok ai ->
  Forall2 affiliation_ids (dedup l) idss ->
  let s := join (lit ";") (List.map (join (lit "-")) idss) in
  derive it = Ok (Some nm, Some ai, match s with [] => None | _ => Some s end).
Proof.
  intros Ha Hl Hnm Hai Hids s. unfold derive. rewrite Ha. simpl.
  rewrite Hl. simpl. unfold extract. rewrite Hnm, Hai. simpl.
  rewrite (mapM_aff_group _ _ Hids). simpl.
  rewrite none_if_empty_spec. reflexivity.
Qed.

Lemma smith_ids : affiliation_ids smith [lit "10"; lit "20"].
Proof.
  eapply ids_list; [reflexivity|]. repeat constructor.
Qed.

Lemma jones_ids : affiliation_ids jones [lit "30"; lit "40"].
Proof.
  eapply ids_list; [reflexivity|]. repeat constructor.
Qed.

Lemma afid_joined_witness :
  join (lit "-") [lit "10"; lit "20"] = lit "10-20" /\
  derive item_pair
  = Ok (Some (lit "Smith J.;Jones K."), Some (lit "7001;7002"),
        Some (lit "10-20;30-40")).
Proof.
  split; [reflexivity|].
  apply (afid_joined item_pair (JList [smith; jones]) [smith; jones]
                     (lit "Smith J.;Jones K.") (lit "7001;7002")
                     [[lit "10"; lit "20"]; [lit "30"; lit "40"]]).
  - reflexivity.
  - reflexivity.
  - vm_compute. reflexivity.
  - vm_compute. reflexivity.
  - change (dedup [smith; jones]) with [smith; jones].
    constructor; [apply smith_ids|].
    constructor; [apply jones_ids|constructor].
Defined.

(** C10: an ['afid'] that is one object and not a list is taken as the
    list of that one object: the author's group is the ['$'] of the
    object, the same as when the object comes wrapped in a list, and it
    stands at the author's place in [afid]. *)
Theorem single_affiliation_as_list (it a : json) (l pre post : list json)
    (d : list (str * json)) (v : json) (id nm ai : str)
    (gs1 gs2 : list str) :
  getitem it (lit "author") = Ok a ->
  iter a = Ok l ->
  dedup l = pre ++ JObj d :: post ->
  lookup (lit "afid") d = Some v ->
  isinstance_list v = false ->
  getitem v (lit "$") = Ok (JStr id) ->
  joined (lit "authname") (dedup l) = Ok nm ->
  joined (lit "authid") (dedup l) = Ok ai ->
  mapM aff_group pre = Ok gs1 ->
  mapM aff_group post = Ok gs2 ->
  aff_group (JObj d) = Ok id /\
  (forall d', lookup (lit "afid") d' = Some (JList [v]) ->
     aff_group (JObj d') = aff_group (JObj d)) /\
  derive it
  = Ok (Some nm, Some ai,
        none_if_empty (join (lit ";") (gs1 ++ id :: gs2))).
Proof.
  intros Ha Hl Hd Hv Hnl Hid Hnm Hai Hpre Hpost.
  assert (aff_group (JObj d) = Ok id) as Hg.
  { apply (aff_group_ids (JObj d) [id]). eapply ids_single; eassumption. }
  split; [assumption|]. split.
  - intros d' Hd'. rewrite Hg.
    apply (aff_group_ids (JObj d') [id]).
    eapply ids_list; [eassumption|]. repeat constructor. assumption.
  - unfold derive. rewrite Ha. simpl. rewrite Hl. simpl.
    unfold extract. rewrite Hnm, Hai. simpl.
    rewrite Hd, mapM_app, Hpre. simpl. rewrite Hg, Hpost. reflexivity.
Qed.

Lemma single_affiliation_as_list_witness :
  aff_group brown = Ok (lit "50") /\
  derive item_single
  = Ok (Some (lit "Smith J.;Brown L.;Jones K."),
        Some (lit "7001;7003;7002"), Some (lit "10-20;50;30-40")).
Proof.
  destruct (single_affiliation_as_list item_single
              (JList [smith; brown; jones]) [smith; brown; jones]
              [smith] [jones]
              [(lit "authname", text "Brown L."); (lit "authid", text "7003");
               (lit "afid", affiliation "50")]
              (affiliation "50") (lit "50")
              (lit "Smith J.;Brown L.;Jones K.") (lit "7001;7003;7002")
              [lit "10-20"] [lit "30-40"]
              eq_refl eq_refl eq_refl eq_refl eq_refl eq_refl
              eq_refl eq_refl eq_refl eq_refl) as [H1 [_ H3]].
  split; [exact H1|exact H3].
Defined.

(** ** One item at a time *)

Lemma get_obj (d : list (str * json)) (k : str) :
  get (JObj d) k JNull = Ok (get_or d k).
Proof. unfold get, get_or. destruct (lookup k d); reflexivity. Qed.

(** On a dict, [new_doc] can only fail at its three subscripts. *)
Lemma new_doc_obj (d : list (str * json)) (an ai af : option str) :
  new_doc (JObj d) an ai af
  = (e <- getitem (JObj d) (lit "eid") ;;
     t <- getitem (JObj d) (lit "dc:title") ;;
     o <- getitem (JObj d) (lit "openaccess") ;;
     Ok (doc e (get_or d (lit "prism:doi")) (get_or d (lit "pii")) t
             (get_or d (lit "subtype")) (get_or d (lit "dc:creator"))
             an ai af
             (get_or d (lit "prism:coverDate"))
             (get_or d (lit "prism:coverDisplayDate"))
             (get_or d (lit "prism:publicationName"))
             (get_or d (lit "prism:issn")) (get_or d (lit "source-id"))
             (get_or d (lit "prism:aggregationType"))
             (get_or d (lit "prism:volume"))
             (get_or d (lit "prism:issueIdentifier"))
             (get_or d (lit "prism:pageRange"))
             (get_or d (lit "citedby-count")) o)).
Proof.
  unfold new_doc.
  destruct (getitem (JObj d) (lit "eid")) as [e|x]; cbn [bind];
    [|reflexivity].
  rewrite !get_obj; cbn [bind].
  destruct (getitem (JObj d) (lit "dc:title")) as [t|x]; cbn [bind];
    [|reflexivity].
  repeat (rewrite get_obj; cbn [bind]).
  reflexivity.
Qed.

(** The derived fields do not bear on the other fields of the record. *)
Lemma new_doc_with_derived (it : json) (an ai af an' ai' af' : option str)
    (r : Document) :
  new_doc it an ai af = Ok r ->
  new_doc it an' ai' af' = Ok (with_derived r an' ai' af').
Proof.
  destruct it as [| | | | |d]; try discriminate.
  rewrite !new_doc_obj.
  destruct (getitem (JObj d) (lit "eid")); cbn [bind]; [|discriminate].
  destruct (getitem (JObj d) (lit "dc:title")); cbn [bind]; [|discriminate].
  destruct (getitem (JObj d) (lit "openaccess")); cbn [bind];
    [|discriminate].
  intros H. injection H as <-. reflexivity.
Qed.

Lemma new_doc_derived (it : json) (an ai af : option str) (r : Document) :
  new_doc it an ai af = Ok r ->
  authname r = an /\ authid r = ai /\ afid r = af.
Proof.
  destruct it as [| | | | |d]; try discriminate.
  rewrite new_doc_obj.
  destruct (getitem (JObj d) (lit "eid")); cbn [bind]; [|discriminate].
  destruct (getitem (JObj d) (lit "dc:title")); cbn [bind]; [|discriminate].
  destruct (getitem (JObj d) (lit "openaccess")); cbn [bind];
    [|discriminate].
  intros H. injection H as <-. repeat split.
Qed.

Lemma results_split (self : ScopusSearch) (pre post : list json)
    (it : json) :
  _json self = pre ++ it :: post ->
  results self
  = (ds1 <- mapM document pre ;;
     r <- document it ;;
     ds2 <- mapM document post ;;
     Ok (ds1 ++ r :: ds2)).
Proof.
  intros H. rewrite results_mapM, H, mapM_app. simpl.
  destruct (mapM document pre); simpl; [|reflexivity].
  destruct (document it); simpl; [|reflexivity].
  destruct (mapM document post); reflexivity.
Qed.

(** ** Items without author data *)

Lemma derive_no_author (d : list (str * json)) :
  lookup (lit "author") d = None ->
  derive (JObj d) = Raise (KeyError (lit "author")).
Proof. intros H. unfold derive. simpl. rewrite H. reflexivity. Qed.

(** C3: when the item has no ['author'], or the extraction of the author
    data raises a [KeyError], the three derived fields of the item's record
    are [None]; the other fields of the record are the ones the item gives
    with any author data, and the records of the other items of the list
    are built from those items alone. *)
Theorem author_failure_blanks (it : json) :
  (exists d, it = JObj d /\ lookup (lit "author") d = None) \/
  (exists k, derive it = Raise (KeyError k)) ->
  derive_or_blank it = Ok (None, None, None) /\
  document it = new_doc it None None None /\
  (forall r, document it = Ok r ->
     authname r = None /\ authid r = None /\ afid r = None /\
     forall an ai af,
       new_doc it an ai af = Ok (with_derived r an ai af)) /\
  (forall self pre post, _json self = pre ++ it :: post ->
     results self
     = (ds1 <- mapM document pre ;;
        r <- new_doc it None None None ;;
        ds2 <- mapM document post ;;
        Ok (ds1 ++ r :: ds2))).
Proof.
  intros H.
  assert (exists k, derive it = Raise (KeyError k)) as [k Hk].
  { destruct H as [[d [-> Hd]]|H]; [|assumption].
    eexists. apply derive_no_author. assumption. }
  assert (derive_or_blank it = Ok (None, None, None)) as Hb.
  { unfold derive_or_blank. rewrite Hk. reflexivity. }
  assert (document it = new_doc it None None None) as Hdoc.
  { unfold document. rewrite Hb. reflexivity. }
  split; [assumption|]. split; [assumption|]. split.
  - intros r Hr. rewrite Hdoc in Hr.
    destruct (new_doc_derived _ _ _ _ _ Hr) as [H1 [H2 H3]].
    repeat (split; [assumption|]).
    intros an ai af. eapply new_doc_with_derived. eassumption.
  - intros self pre post Hself.
    rewrite (results_split self pre post it Hself), Hdoc. reflexivity.
Qed.

Lemma author_failure_blanks_witness :
  derive_or_blank item_no_author = Ok (None, None, None) /\
  derive_or_blank item_no_dollar = Ok (None, None, None) /\
  exists r1 r2 r3 r4,
    results (search [item_pair; item_no_author; item_no_dollar; item_twice])
    = Ok [r1; r2; r3; r4] /\
    document item_pair = Ok r1 /\ document item_twice = Ok r4 /\
    (authname r2, authid r2, afid r2) = (None, None, None) /\
    (authname r3, authid r3, afid r3) = (None, None, None) /\
    (eid r3, title r3) = (text "2-s2.0-7", text "Seventh") /\
    afid r1 = Some (lit "10-20;30-40").
Proof.
  split.
  { apply (author_failure_blanks item_no_author).
    left. eexists. split; reflexivity. }
  split.
  { apply (author_failure_blanks item_no_dollar).
    right. exists (lit "$"). vm_compute. reflexivity. }
  do 4 eexists. split; [vm_compute; reflexivity|].
  repeat split; vm_compute; reflexivity.
Defined.

(** ** Items without a required field *)

Lemma new_doc_first_missing (d : list (str * json)) (k : str)
    (an ai af : option str) :
  first_missing d = Some k ->
  new_doc (JObj d) an ai af = Raise (KeyError k).
Proof.
  rewrite new_doc_obj. unfold first_missing, required, getitem. simpl.
  destruct (lookup (lit "eid") d); simpl.
  - destruct (lookup (lit "dc:title") d); simpl.
    + destruct (lookup (lit "openaccess") d); simpl.
      * discriminate.
      * intros H. injection H as <-. reflexivity.
    + intros H. injection H as <-. reflexivity.
  - intros H. injection H as <-. reflexivity.
Qed.

Lemma document_first_missing (d : list (str * json)) (k : str) :
  first_missing d = Some k ->
  (exists e, document (JObj d) = Raise e) /\
  (forall t, derive_or_blank (JObj d) = Ok t ->
     document (JObj d) = Raise (KeyError k)).
Proof.
  intros Hk. unfold document.
  destruct (derive_or_blank (JObj d)) as [[[an ai] af]|e]; simpl.
  - rewrite (new_doc_first_missing d k an ai af Hk).
    split; [eexists; reflexivity|]. intros _ _. reflexivity.
  - split; [eexists; reflexivity|]. discriminate.
Qed.

(** An item without a title among two items that map: [results] raises
    [KeyError] and returns no record. *)
Lemma results_aborts_whole_batch :
  (exists r, document item_pair = Ok r) /\
  (exists r, document item_twice = Ok r) /\
  results (search [item_pair; item_no_title; item_twice])
  = Raise (KeyError (lit "dc:title")) /\
  ~ maps_rest_of_batch (search [item_pair; item_no_title; item_twice]).
Proof.
  split; [eexists; vm_compute; reflexivity|].
  split; [eexists; vm_compute; reflexivity|].
  assert (results (search [item_pair; item_no_title; item_twice])
          = Raise (KeyError (lit "dc:title"))) as H.
  { vm_compute. reflexivity. }
  split; [assumption|].
  intros [recs [Hr _]]. rewrite H in Hr. discriminate.
Qed.

(** C1, as the code has it: an item that is a dict without one of
    ['eid'], ['dc:title'], ['openaccess'] makes [results] raise; when the
    items before it map and its author data is extracted or blanked, the
    exception is the [KeyError] of the first missing key, and no record is
    returned for any item of the list. *)
Theorem results_raises_on_missing_required (self : ScopusSearch)
    (pre post : list json) (d : list (str * json)) (k : str) :
  _json self = pre ++ JObj d :: post ->
  first_missing d = Some k ->
  (exists e, results self = Raise e) /\
  (forall ds t, mapM document pre = Ok ds ->
     derive_or_blank (JObj d) = Ok t ->
     results self = Raise (KeyError k)).
Proof.
  intros Hself Hk.
  destruct (document_first_missing d k Hk) as [[e He] Hdoc].
  rewrite (results_split self pre post (JObj d) Hself). split.
  - destruct (mapM document pre); simpl; [|eexists; reflexivity].
    rewrite He. eexists. reflexivity.
  - intros ds t Hpre Ht. rewrite Hpre, (Hdoc t Ht). reflexivity.
Qed.

Lemma results_raises_on_missing_required_witness :
  results (search [item_pair; item_no_title; item_twice])
  = Raise (KeyError (lit "dc:title")).
Proof.
  eapply (results_raises_on_missing_required
            (search [item_pair; item_no_title; item_twice])
            [item_pair] [item_twice]).
  - reflexivity.
  - vm_compute. reflexivity.
  - vm_compute. reflexivity.
  - vm_compute. reflexivity.
Defined.

(** ** The cache file of a query *)

Example md5_empty : MD5.hexdigest [] = lit "d41d8cd98f00b204e9800998ecf8427e".
Proof. vm_compute. reflexivity. Qed.

Example md5_abc :
  bind (encode_utf8 (lit "abc")) (fun b => Ok (MD5.hexdigest b))
  = Ok (lit "900150983cd24fb0d6963f7d28e17f72").
Proof. vm_compute. reflexivity. Qed.

Example md5_query :
  qfile (lit "/home/u/.scopus/scopus_search") (lit "AUTHOR-NAME(Smith)")
  = Ok (lit "/home/u/.scopus/scopus_search/f64ee790ad50edf690e18541540e05df").
Proof. vm_compute. reflexivity. Qed.

Example md5_e_acute :
  bind (encode_utf8 [233]) (fun b => Ok (MD5.hexdigest b))
  = Ok (lit "66ddcd97cfdeabb2f6fb8a999b4bc76f").
Proof. vm_compute. reflexivity. Qed.

Example md5_56 :
  MD5.hexdigest (repeat 97 56) = lit "3b0c8ac703f828b04c6c197006d17218".
Proof. vm_compute. reflexivity. Qed.

Example md5_64 :
  MD5.hexdigest (repeat 97 64) = lit "014842d480b571495a4a0363793f7367".
Proof. vm_compute. reflexivity. Qed.

Lemma is_scalar_spec (c : N) :
  is_scalar c = true <-> c < 0xD800 \/ (0xDFFF < c /\ c < 0x110000).
Proof.
  unfold is_scalar.
  rewrite orb_true_iff, andb_true_iff, !N.ltb_lt. reflexivity.
Qed.

Lemma utf8_char_scalar (c : N) :
  is_scalar c = true -> exists bs, utf8_char c = Ok bs.
Proof.
  rewrite is_scalar_spec. intros H. unfold utf8_char.
  destruct (c <? 0x80) eqn:H1; [eexists; reflexivity|].
  destruct (c <? 0x800) eqn:H2; [eexists; reflexivity|].
  destruct ((0xD800 <=? c) && (c <=? 0xDFFF)) eqn:H3.
  - exfalso. apply andb_prop in H3 as [H3 H4].
    apply N.leb_le in H3. apply N.leb_le in H4. lia.
  - destruct (c <? 0x10000) eqn:H4; [eexists; reflexivity|].
    destruct (c <? 0x110000) eqn:H5; [eexists; reflexivity|].
    exfalso. apply N.ltb_ge in H4. apply N.ltb_ge in H5. lia.
Qed.

Lemma encode_utf8_scalar (s : str) :
  Forall (fun c => is_scalar c = true) s -> exists bs, encode_utf8 s = Ok bs.
Proof.
  intros H. unfold encode_utf8.
  destruct (mapM_total utf8_char s) as [bs Hbs].
  - eapply Forall_impl; [|eassumption]. apply utf8_char_scalar.
  - rewrite Hbs. eexists. reflexivity.
Qed.

Lemma le_bytes_length (n : nat) (x : N) : List.length (MD5.le_bytes n x) = n.
Proof. unfold MD5.le_bytes. rewrite length_map, length_seq. reflexivity. Qed.

Lemma le_bytes_bound (n : nat) (x : N) :
  Forall (fun b => b < 256) (MD5.le_bytes n x).
Proof.
  unfold MD5.le_bytes. apply Forall_forall. intros b Hb.
  apply in_map_iff in Hb as [i [<- _]]. apply N.mod_lt. discriminate.
Qed.

Lemma digest_length (m : list N) : List.length (MD5.digest m) = 16%nat.
Proof.
  unfold MD5.digest.
  destruct (fold_left MD5.compress _ _) as [[[a b] c] d].
  rewrite !length_app, !le_bytes_length. reflexivity.
Qed.

Lemma digest_bound (m : list N) : Forall (fun b => b < 256) (MD5.digest m).
Proof.
  unfold MD5.digest.
  destruct (fold_left MD5.compress _ _) as [[[a b] c] d].
  repeat (apply Forall_app; split); apply le_bytes_bound.
Qed.

Lemma hex_digit_is_hex (n : N) : n < 16 -> is_hex (MD5.hex_digit n) = true.
Proof.
  intros H. unfold MD5.hex_digit, is_hex.
  destruct (n <? 10) eqn:Hn.
  - apply N.ltb_lt in Hn. apply orb_true_iff. left.
    apply andb_true_iff. split; apply N.leb_le; lia.
  - apply N.ltb_ge in Hn. apply orb_true_iff. right.
    apply andb_true_iff. split; apply N.leb_le; lia.
Qed.

Lemma hexdigest_length (m : list N) :
  List.length (MD5.hexdigest m) = 32%nat.
Proof.
  unfold MD5.hexdigest.
  assert (forall l : list N,
            List.length
              (flat_map (fun b => [MD5.hex_digit (b / 16);
                                   MD5.hex_digit (b mod 16)]) l)
            = (2 * List.length l)%nat) as H.
  { induction l as [|b l IH]; simpl; [reflexivity|]. rewrite IH. lia. }
  rewrite H, digest_length. reflexivity.
Qed.

Lemma hexdigest_is_hex (m : list N) :
  Forall (fun c => is_hex c = true) (MD5.hexdigest m).
Proof.
  unfold MD5.hexdigest. apply Forall_flat_map.
  eapply Forall_impl; [|apply digest_bound].
  intros b Hb. constructor; [|constructor; [|constructor]].
  - apply hex_digit_is_hex.
    apply N.Div0.div_lt_upper_bound. exact Hb.
  - apply hex_digit_is_hex. apply N.mod_lt. discriminate.
Qed.

(** A name made of hex digits is put under the directory. *)
Lemma path_join_hex (a h : str) :
  Forall (fun c => is_hex c = true) h ->
  exists sep, (sep = [] \/ sep = lit "/") /\ path_join a h = a ++ sep ++ h.
Proof.
  intros Hh. unfold path_join.
  assert (startswith_sep h = false) as ->.
  { destruct Hh as [|c h Hc _]; [reflexivity|]. simpl.
    apply N.eqb_neq. intros ->. discriminate. }
  destruct (match a with [] => true | _ :: _ => endswith_sep a end).
  - exists []. split; [left; reflexivity|reflexivity].
  - exists (lit "/"). split; [right; reflexivity|reflexivity].
Qed.

Lemma lor_small (hi : N) (n : nat) :
  forallb (fun i => N.lor hi (N.of_nat i) =? hi + N.of_nat i) (seq 0 n)
  = true ->
  forall y, y < N.of_nat n -> N.lor hi y = hi + y.
Proof.
  intros H y Hy. rewrite forallb_forall in H.
  specialize (H (N.to_nat y)). rewrite N2Nat.id in H.
  apply N.eqb_eq, H, in_seq. lia.
Qed.

Lemma land_63 (x : N) : N.land x 0x3F = x mod 64.
Proof. apply (N.land_ones x 6). Qed.

Lemma shiftr_6 (x : N) : N.shiftr x 6 = x / 64.
Proof. apply (N.shiftr_div_pow2 x 6). Qed.

Lemma shiftr_12 (x : N) : N.shiftr x 12 = x / 64 / 64.
Proof.
  rewrite (N.shiftr_div_pow2 x 12), N.Div0.div_div. reflexivity.
Qed.

Lemma shiftr_18 (x : N) : N.shiftr x 18 = x / 64 / 64 / 64.
Proof.
  rewrite (N.shiftr_div_pow2 x 18), !N.Div0.div_div. reflexivity.
Qed.

Lemma cont_byte (x : N) : N.lor 0x80 (x mod 64) = 0x80 + x mod 64.
Proof.
  apply (lor_small 0x80 64); [vm_compute; reflexivity|].
  apply N.mod_lt. discriminate.
Qed.

(** The bytes of a character, in arithmetic. *)
Lemma utf8_char_bytes (c : N) (bs : list N) :
  utf8_char c = Ok bs ->
  (c < 0x80 /\ bs = [c]) \/
  (0x80 <= c < 0x800 /\ bs = [0xC0 + c / 64; 0x80 + c mod 64]) \/
  (0x800 <= c < 0x10000 /\
   bs = [0xE0 + c / 64 / 64; 0x80 + (c / 64) mod 64; 0x80 + c mod 64]) \/
  (0x10000 <= c < 0x110000 /\
   bs = [0xF0 + c / 64 / 64 / 64; 0x80 + (c / 64 / 64) mod 64;
         0x80 + (c / 64) mod 64; 0x80 + c mod 64]).
Proof.
  unfold utf8_char.
  rewrite !land_63, shiftr_6, shiftr_12, shiftr_18, !cont_byte.
  destruct (c <? 0x80) eqn:H1.
  { intros H. injection H as <-. apply N.ltb_lt in H1. left. auto. }
  apply N.ltb_ge in H1.
  destruct (c <? 0x800) eqn:H2.
  { intros H. injection H as <-. apply N.ltb_lt in H2. right. left.
    split; [lia|]. f_equal.
    apply (lor_small 0xC0 32); [vm_compute; reflexivity|].
    apply N.Div0.div_lt_upper_bound. exact H2. }
  apply N.ltb_ge in H2.
  destruct ((0xD800 <=? c) && (c <=? 0xDFFF)); [discriminate|].
  destruct (c <? 0x10000) eqn:H3.
  { intros H. injection H as <-. apply N.ltb_lt in H3. right. right. left.
    split; [lia|]. f_equal.
    apply (lor_small 0xE0 16); [vm_compute; reflexivity|].
    apply N.Div0.div_lt_upper_bound, N.Div0.div_lt_upper_bound. exact H3. }
  apply N.ltb_ge in H3.
  destruct (c <? 0x110000) eqn:H4; [|discriminate].
  intros H. injection H as <-. apply N.ltb_lt in H4. right. right. right.
  split; [lia|]. f_equal.
  apply (lor_small 0xF0 8); [vm_compute; reflexivity|].
  do 3 apply N.Div0.div_lt_upper_bound. lia.
Qed.

(** The quotient and the remainder of a division by 64, as variables. *)
Ltac euclid a :=
  let q := fresh "q" in
  let r := fresh "r" in
  pose proof (N.div_mod a 64 ltac:(discriminate));
  pose proof (N.mod_lt a 64 ltac:(discriminate));
  set (q := a / 64) in *; set (r := a mod 64) in *; clearbody q r.

Lemma cons_inj {A : Type} (x y : A) (l l' : list A) :
  x :: l = y :: l' -> x = y /\ l = l'.
Proof. intros H. injection H as -> ->. split; reflexivity. Qed.

Lemma utf8_char_prefix_free (c c' : N) (bs bs' r r' : list N) :
  utf8_char c = Ok bs -> utf8_char c' = Ok bs' ->
  bs ++ r = bs' ++ r' -> c = c' /\ r = r'.
Proof.
  intros H H'. apply utf8_char_bytes in H. apply utf8_char_bytes in H'.
  euclid c. euclid q. euclid q0. euclid c'. euclid q2. euclid q3.
  destruct H as [[B ->]|[[B ->]|[[B ->]|[B ->]]]];
    destruct H' as [[B' ->]|[[B' ->]|[[B' ->]|[B' ->]]]];
    cbn [app]; intros E;
    repeat match goal with
           | E : _ :: _ = _ :: _ |- _ =>
               apply cons_inj in E; destruct E as [? E]
           end;
    split; first [assumption | lia | exfalso; lia].
Qed.

Lemma utf8_chars_inj (s s' : str) (bss bss' : list (list N)) :
  Forall2 (fun c b => utf8_char c = Ok b) s bss ->
  Forall2 (fun c b => utf8_char c = Ok b) s' bss' ->
  List.concat bss = List.concat bss' -> s = s'.
Proof.
  intros H. revert s' bss'.
  induction H as [|c b s bss Hc _ IH]; intros s' bss' H' E;
    destruct H' as [|c' b' s' bss' Hc' H']; cbn [List.concat] in E.
  - reflexivity.
  - apply utf8_char_bytes in Hc'.
    destruct Hc' as [[_ ->]|[[_ ->]|[[_ ->]|[_ ->]]]]; discriminate.
  - apply utf8_char_bytes in Hc.
    destruct Hc as [[_ ->]|[[_ ->]|[[_ ->]|[_ ->]]]]; discriminate.
  - destruct (utf8_char_prefix_free c c' b b' _ _ Hc Hc' E) as [-> E'].
    f_equal. eapply IH; eassumption.
Qed.

(** Two strings with the same UTF-8 bytes are the same string. *)
Lemma encode_utf8_inj (s s' : str) (bs : list N) :
  encode_utf8 s = Ok bs -> encode_utf8 s' = Ok bs -> s = s'.
Proof.
  unfold encode_utf8.
  destruct (mapM utf8_char s) as [bss|] eqn:H; simpl; [|discriminate].
  destruct (mapM utf8_char s') as [bss'|] eqn:H'; simpl; [|discriminate].
  intros E E'. injection E as <-. injection E' as E'.
  apply mapM_Ok_Forall2 in H. apply mapM_Ok_Forall2 in H'.
  symmetry. eapply utf8_chars_inj; eassumption.
Qed.

Lemma hex_digit_inj (m n : N) :
  m < 16 -> n < 16 -> MD5.hex_digit m = MD5.hex_digit n -> m = n.
Proof.
  unfold MD5.hex_digit. intros Hm Hn.
  destruct (m <? 10) eqn:Em; destruct (n <? 10) eqn:En;
    try apply N.ltb_lt in Em; try apply N.ltb_ge in Em;
    try apply N.ltb_lt in En; try apply N.ltb_ge in En; lia.
Qed.

Lemma hex_bytes_inj (l l' : list N) :
  Forall (fun b => b < 256) l -> Forall (fun b => b < 256) l' ->
  flat_map (fun b => [MD5.hex_digit (b / 16); MD5.hex_digit (b mod 16)]) l
  = flat_map (fun b => [MD5.hex_digit (b / 16); MD5.hex_digit (b mod 16)]) l'
  -> l = l'.
Proof.
  intros H. revert l'.
  induction H as [|b l Hb _ IH]; intros l' H' E;
    destruct H' as [|b' l' Hb' H']; cbn [flat_map app] in E;
    try discriminate; [reflexivity|].
  apply cons_inj in E as [E1 E]. apply cons_inj in E as [E2 E].
  apply hex_digit_inj in E1;
    [|apply N.Div0.div_lt_upper_bound; assumption
     |apply N.Div0.div_lt_upper_bound; assumption].
  apply hex_digit_inj in E2; [|apply N.mod_lt; discriminate
                              |apply N.mod_lt; discriminate].
  f_equal; [|apply IH; assumption].
  rewrite (N.div_mod b 16), (N.div_mod b' 16) by discriminate.
  rewrite E1, E2. reflexivity.
Qed.

(** Two messages have the same hex digest only when they have the same
    digest. *)
Lemma hexdigest_inj (m m' : list N) :
  MD5.hexdigest m = MD5.hexdigest m' -> MD5.digest m = MD5.digest m'.
Proof. apply hex_bytes_inj; apply digest_bound. Qed.

Lemma startswith_sep_hex (h : str) :
  Forall (fun c => is_hex c = true) h -> startswith_sep h = false.
Proof.
  intros [|c h' Hc _]; [reflexivity|]. simpl.
  apply N.eqb_neq. intros ->. discriminate.
Qed.

(** Two names of hex digits under one directory are one file only when
    they are the same name. *)
Lemma path_join_hex_inj (a h h' : str) :
  Forall (fun c => is_hex c = true) h ->
  Forall (fun c => is_hex c = true) h' ->
  path_join a h = path_join a h' -> h = h'.
Proof.
  intros Hh Hh'. unfold path_join.
  rewrite (startswith_sep_hex h Hh), (startswith_sep_hex h' Hh').
  destruct (match a with [] => true | _ :: _ => endswith_sep a end);
    intros E.
  - apply app_inv_head in E. assumption.
  - apply app_inv_head in E. apply app_inv_head in E. assumption.
Qed.

(** The digests of [md5_vectors] are the ones the model computes. *)
Lemma md5_vectors_digests :
  Forall (fun v => (b <- encode_utf8 (fst v) ;; Ok (MD5.hexdigest b))
                   = Ok (snd v))
         md5_vectors.
Proof.
  unfold md5_vectors.
  repeat (apply Forall_cons; [vm_compute; reflexivity|]).
  apply Forall_nil.
Qed.

Lemma qfile_vectors (config_dir : str) :
  Forall (fun v => qfile config_dir (fst v)
                   = Ok (path_join config_dir (snd v)))
         md5_vectors.
Proof.
  eapply Forall_impl; [|apply md5_vectors_digests].
  intros [q h]. unfold qfile. cbn [fst snd].
  destruct (encode_utf8 q); cbn [bind]; [|discriminate].
  intros H. injection H as ->. reflexivity.
Qed.

(** C9: the cache file of a query is the directory of the configuration
    joined with the MD5 digest, in 32 hex digits, of the UTF-8 bytes of
    the query.  Queries with the same bytes, equal queries among them,
    have the same file; only the query itself has its bytes; two queries
    have the same file exactly when the digests of their bytes are the
    same; and the digests are those of MD5: the queries of [md5_vectors]
    have the files that RFC 1321 and [hashlib] give them. *)
Theorem qfile_content_addressed (config_dir query : str) :
  Forall (fun c => is_scalar c = true) query ->
  exists bytes,
    encode_utf8 query = Ok bytes /\
    qfile config_dir query
    = Ok (path_join config_dir (MD5.hexdigest bytes)) /\
    List.length (MD5.hexdigest bytes) = 32%nat /\
    Forall (fun c => is_hex c = true) (MD5.hexdigest bytes) /\
    (exists sep, (sep = [] \/ sep = lit "/") /\
       path_join config_dir (MD5.hexdigest bytes)
       = config_dir ++ sep ++ MD5.hexdigest bytes) /\
    (forall query', encode_utf8 query' = Ok bytes ->
       qfile config_dir query' = qfile config_dir query) /\
    (forall query', query' = query ->
       qfile config_dir query' = qfile config_dir query) /\
    (forall query', encode_utf8 query' = Ok bytes -> query' = query) /\
    (forall query' bytes', encode_utf8 query' = Ok bytes' ->
       (qfile config_dir query' = qfile config_dir query <->
        MD5.digest bytes' = MD5.digest bytes)) /\
    Forall (fun v => qfile config_dir (fst v)
                     = Ok (path_join config_dir (snd v)))
           md5_vectors.
Proof.
  intros Hq. destruct (encode_utf8_scalar query Hq) as [bytes Hb].
  exists bytes. split; [assumption|].
  split; [unfold qfile; rewrite Hb; reflexivity|].
  split; [apply hexdigest_length|].
  split; [apply hexdigest_is_hex|].
  split; [apply path_join_hex, hexdigest_is_hex|].
  split.
  { intros query' Hb'. unfold qfile. rewrite Hb, Hb'. reflexivity. }
  split.
  { intros query' ->. reflexivity. }
  split.
  { intros query' Hb'. eapply encode_utf8_inj; eassumption. }
  split; [|apply qfile_vectors].
  intros query' bytes' Hb'. unfold qfile. rewrite Hb, Hb'. cbn [bind].
  split.
  - intros E. injection E as E. apply hexdigest_inj.
    eapply path_join_hex_inj; [| |exact E]; apply hexdigest_is_hex.
  - intros E. unfold MD5.hexdigest. rewrite E. reflexivity.
Qed.

Lemma qfile_content_addressed_witness :
  qfile (lit "/home/u/.scopus/scopus_search") (lit "AUTHOR-NAME(Smith)")
  = Ok (lit "/home/u/.scopus/scopus_search/f64ee790ad50edf690e18541540e05df")
  /\
  qfile (lit "/home/u/.scopus/scopus_search") (lit "AUTHOR-NAME(Jones)")
  = Ok (lit "/home/u/.scopus/scopus_search/2bc78bae0baa00d9785b0c3a145b6f27")
  /\
  qfile (lit "/home/u/.scopus/scopus_search") (lit "AUTHOR-NAME(Jones)")
  <> qfile (lit "/home/u/.scopus/scopus_search") (lit "AUTHOR-NAME(Smith)").
Proof.
  destruct (qfile_content_addressed (lit "/home/u/.scopus/scopus_search")
                                    (lit "AUTHOR-NAME(Smith)"))
    as [bytes [H1 [H2 [_ [_ [_ [_ [_ [_ [H9 _]]]]]]]]]].
  - apply Forall_forall. intros c Hc.
    apply (proj1 (forallb_forall is_scalar (lit "AUTHOR-NAME(Smith)")));
      [vm_compute; reflexivity|assumption].
  - vm_compute in H1. injection H1 as <-.
    split; [rewrite H2; vm_compute; reflexivity|].
    split; [vm_compute; reflexivity|].
    intros E.
    apply (H9 (lit "AUTHOR-NAME(Jones)") (lit "AUTHOR-NAME(Jones)")) in E;
      [|vm_compute; reflexivity].
    vm_compute in E. discriminate.
Defined.

(** ** More results than the ceiling *)

(** C6: when the first page reports a total above 5000, the constructor
    fails with [ResultSetTooLargeError]; the first page is the only
    request sent, and the cache files are as they were. *)
Theorem too_many_results_fail (config_dir : str) (api : Search.remote)
    (fuel : nat) (query : str) (refresh : bool) (w : Search.world)
    (path : str) (entries : list json) (total : N) :
  qfile config_dir query = Ok path ->
  refresh = true \/ Search.read path (Search.files w) = None ->
  api (lit "https://api.elsevier.com/content/search/scopus") query
      0 25 (lit "COMPLETE")
  = Search.Envelope entries total ->
  5000 < total ->
  __init__ config_dir api fuel query refresh w
  = (Failed Search.ResultSetTooLargeError,
     {| Search.files := Search.files w;
        Search.requests := Search.requests w ++ [0] |}).
Proof.
  intros Hq Hmiss Hapi Htotal. unfold __init__. rewrite Hq.
  unfold Search.__init__.
  assert ((if refresh then None else Search.read path (Search.files w))
          = None) as ->.
  { destruct Hmiss as [->|Hread]; [reflexivity|].
    rewrite Hread. destruct refresh; reflexivity. }
  rewrite Hapi.
  apply N.ltb_lt in Htotal. rewrite Htotal. reflexivity.
Qed.

Lemma too_many_results_fail_witness :
  __init__ (lit "/home/u/.scopus/scopus_search") api_5001 0%nat
           (lit "AUTHOR-NAME(Smith)") false empty_world
  = (Failed Search.ResultSetTooLargeError,
     {| Search.files := []; Search.requests := [0] |}).
Proof.
  apply (too_many_results_fail
           (lit "/home/u/.scopus/scopus_search") api_5001 0
           (lit "AUTHOR-NAME(Smith)") false empty_world
           (lit "/home/u/.scopus/scopus_search/f64ee790ad50edf690e18541540e05df")
           [item_pair] 5001).
  - vm_compute. reflexivity.
  - right. reflexivity.
  - reflexivity.
  - lia.
Defined.

(** Two items and a total of 2: the object holds the two items, the cache
    file of the query holds them, one request was sent, and [get_eids]
    gives the identifiers in the order of the API. *)
Example two_items_retrieved :
  exists self w,
    __init__ (lit "/home/u/.scopus/scopus_search") api_two 10
             (lit "AUTHOR-NAME(Smith)") false empty_world = (Built self, w) /\
    _json self = two_items /\
    Search.files w
    = [(lit "/home/u/.scopus/scopus_search/f64ee790ad50edf690e18541540e05df",
        two_items)] /\
    Search.requests w = [0] /\
    get_eids self = Ok [text "2-s2.0-1"; text "2-s2.0-2"].
Proof.
  do 2 eexists. split; [vm_compute; reflexivity|].
  repeat split.
Qed.

(** With the cache file in place and no refresh, the items are loaded
    from it and no request is sent. *)
Example two_items_cached :
  let path :=
    lit "/home/u/.scopus/scopus_search/f64ee790ad50edf690e18541540e05df" in
  let w := {| Search.files := [(path, two_items)]; Search.requests := [] |} in
  __init__ (lit "/home/u/.scopus/scopus_search") api_5001 0
           (lit "AUTHOR-NAME(Smith)") false w
  = (Built {| query := lit "AUTHOR-NAME(Smith)"; _json := two_items |}, w).
Proof. vm_compute. reflexivity. Qed.

(** ** How a comprehension fails *)

Lemma mapM_Raise_at {A B : Type} (f : A -> result B) (pre post : list A)
    (x : A) (ys : list B) (e : exn) :
  mapM f pre = Ok ys -> f x = Raise e -> mapM f (pre ++ x :: post) = Raise e.
Proof.
  intros Hpre Hx. rewrite mapM_app, Hpre. simpl. rewrite Hx. reflexivity.
Qed.

Lemma mapM_Raise_inv {A B : Type} (f : A -> result B) (l : list A) (e : exn) :
  mapM f l = Raise e ->
  exists pre x post ys,
    l = pre ++ x :: post /\ mapM f pre = Ok ys /\ f x = Raise e.
Proof.
  induction l as [|x l IH]; simpl; [discriminate|].
  destruct (f x) as [y|e'] eqn:Hx; simpl.
  - destruct (mapM f l) as [ys|e'] eqn:Hl; simpl; [discriminate|].
    intros H. injection H as ->.
    destruct (IH eq_refl) as [pre [z [post [zs [-> [Hpre Hz]]]]]].
    exists (x :: pre), z, post, (y :: zs). simpl. rewrite Hx, Hpre.
    repeat split. assumption.
  - intros H. injection H as ->.
    exists [], x, l, []. repeat split. assumption.
Qed.

(** ** Records and identifiers *)

Lemma new_doc_eid (it : json) (an ai af : option str) (r : Document) :
  new_doc it an ai af = Ok r ->
  getitem it (lit "eid") = Ok (eid r) /\
  getitem it (lit "dc:title") = Ok (title r) /\
  getitem it (lit "openaccess") = Ok (openaccess r).
Proof.
  destruct it as [| | | | |d]; try discriminate.
  rewrite new_doc_obj.
  destruct (getitem (JObj d) (lit "eid")); cbn [bind]; [|discriminate].
  destruct (getitem (JObj d) (lit "dc:title")); cbn [bind]; [|discriminate].
  destruct (getitem (JObj d) (lit "openaccess")); cbn [bind];
    [|discriminate].
  intros H. injection H as <-. repeat split.
Qed.

Lemma document_required (it : json) (r : Document) :
  document it = Ok r ->
  getitem it (lit "eid") = Ok (eid r) /\
  getitem it (lit "dc:title") = Ok (title r) /\
  getitem it (lit "openaccess") = Ok (openaccess r).
Proof.
  unfold document.
  destruct (derive_or_blank it) as [[[an ai] af]|e]; simpl; [|discriminate].
  apply new_doc_eid.
Qed.

(** X1: the identifiers that [get_eids] returns are the [eid] fields of
    the records that [results] returns, position by position; when
    [get_eids] raises, so does [results]. *)
Theorem results_eids_are_get_eids (self : ScopusSearch) :
  (forall recs, results self = Ok recs ->
     get_eids self = Ok (List.map eid recs)) /\
  (forall e, get_eids self = Raise e -> exists e', results self = Raise e').
Proof.
  assert (forall recs, results self = Ok recs ->
            get_eids self = Ok (List.map eid recs)) as H.
  { intros recs. rewrite results_mapM. intros Hr.
    apply mapM_Ok_Forall2 in Hr. apply mapM_Ok_Forall2.
    induction Hr as [|it r items recs Hit _ IH]; simpl; constructor.
    - apply document_required in Hit. apply Hit.
    - assumption. }
  split; [assumption|].
  intros e He. destruct (results self) as [recs|e'] eqn:Hr.
  - rewrite (H recs eq_refl) in He. discriminate.
  - exists e'. reflexivity.
Qed.

(** ** Which exceptions leave [results] *)

Lemma first_missing_None (d : list (str * json)) :
  first_missing d = None ->
  exists e t o,
    lookup (lit "eid") d = Some e /\
    lookup (lit "dc:title") d = Some t /\
    lookup (lit "openaccess") d = Some o.
Proof.
  unfold first_missing, required. simpl.
  destruct (lookup (lit "eid") d) as [e|]; [|discriminate].
  destruct (lookup (lit "dc:title") d) as [t|]; [|discriminate].
  destruct (lookup (lit "openaccess") d) as [o|]; [|discriminate].
  intros _. exists e, t, o. repeat split.
Qed.

Lemma new_doc_total (d : list (str * json)) (an ai af : option str) :
  first_missing d = None -> exists r, new_doc (JObj d) an ai af = Ok r.
Proof.
  intros H. destruct (first_missing_None d H) as [e [t [o [He [Ht Ho]]]]].
  rewrite new_doc_obj. unfold getitem. rewrite He, Ht, Ho. simpl.
  eexists. reflexivity.
Qed.

Lemma derive_or_blank_Raise (it : json) (e : exn) :
  derive_or_blank it = Raise e <->
  derive it = Raise e /\ forall k, e <> KeyError k.
Proof.
  unfold derive_or_blank.
  destruct (derive it) as [t|[k| | |]]; split;
    try discriminate; try (intros [H _]; discriminate).
  - intros [H Hk]. injection H as <-. exfalso. apply (Hk k). reflexivity.
  - intros H. split; [assumption|]. injection H as <-. discriminate.
  - intros [H _]. assumption.
  - intros H. split; [assumption|]. injection H as <-. discriminate.
  - intros [H _]. assumption.
  - intros H. split; [assumption|]. injection H as <-. discriminate.
  - intros [H _]. assumption.
Qed.

Lemma document_Raise_required (d : list (str * json)) (e : exn) :
  first_missing d = None ->
  document (JObj d) = Raise e ->
  derive (JObj d) = Raise e /\ forall k, e <> KeyError k.
Proof.
  intros Hd. unfold document.
  destruct (derive_or_blank (JObj d)) as [[[an ai] af]|e'] eqn:Hb; simpl.
  - destruct (new_doc_total d an ai af Hd) as [r ->]. discriminate.
  - intros H. injection H as ->. apply derive_or_blank_Raise. assumption.
Qed.

(** X2: when every stored item is a dict with the keys ['eid'],
    ['dc:title'] and ['openaccess'], no [KeyError] leaves [results]: an
    exception that does is one that the extraction of the author data of
    some item raised, and not a [KeyError]. *)
Theorem results_no_KeyError (self : ScopusSearch) (e : exn) :
  Forall (fun it => exists d, it = JObj d /\ first_missing d = None)
         (_json self) ->
  results self = Raise e ->
  (forall k, e <> KeyError k) /\
  exists it, In it (_json self) /\ derive it = Raise e.
Proof.
  rewrite results_mapM. intros Hall Hr.
  apply mapM_Raise_inv in Hr as [pre [it [post [ds [Hl [_ Hit]]]]]].
  rewrite Forall_forall in Hall.
  assert (In it (_json self)) as Hin.
  { rewrite Hl. apply in_or_app. right. left. reflexivity. }
  destruct (Hall it Hin) as [d [-> Hd]].
  destruct (document_Raise_required d e Hd Hit) as [H1 H2].
  split; [assumption|]. exists (JObj d). split; assumption.
Qed.

Lemma results_no_KeyError_witness :
  results (search [item_pair; item_null_name; item_twice]) = Raise TypeError /\
  exists it,
    In it [item_pair; item_null_name; item_twice] /\
    derive it = Raise TypeError.
Proof.
  split; [vm_compute; reflexivity|].
  apply (results_no_KeyError
           (search [item_pair; item_null_name; item_twice]) TypeError).
  - repeat constructor; eexists; split; reflexivity.
  - vm_compute. reflexivity.
Defined.

(** X3: an exception other than [KeyError] raised by the extraction of
    the author data of an item is not blanked: when the items before it
    map, it leaves [results], whatever the other fields of the item and the
    items after it are. *)
Theorem results_other_exception (self : ScopusSearch) (pre post : list json)
    (it : json) (ds : list Document) (e : exn) :
  _json self = pre ++ it :: post ->
  mapM document pre = Ok ds ->
  derive it = Raise e ->
  (forall k, e <> KeyError k) ->
  document it = Raise e /\ results self = Raise e.
Proof.
  intros Hself Hpre Hit Hk.
  assert (document it = Raise e) as Hdoc.
  { unfold document.
    rewrite (proj2 (derive_or_blank_Raise it e) (conj Hit Hk)).
    reflexivity. }
  split; [assumption|].
  rewrite results_mapM, Hself.
  eapply mapM_Raise_at; eassumption.
Qed.

Lemma results_other_exception_witness :
  document item_null_name = Raise TypeError /\
  results (search [item_pair; item_null_name; item_twice]) = Raise TypeError.
Proof.
  eapply (results_other_exception
            (search [item_pair; item_null_name; item_twice])
            [item_pair] [item_twice] item_null_name).
  - reflexivity.
  - vm_compute. reflexivity.
  - vm_compute. reflexivity.
  - discriminate.
Defined.

(** ** Items that map *)

Lemma Forall_exists_Forall2 {A B : Type} (R : A -> B -> Prop) (l : list A) :
  Forall (fun x => exists y, R x y) l -> exists l', Forall2 R l l'.
Proof.
  induction 1 as [|x l [y Hy] _ [l' Hl']].
  - exists []. constructor.
  - exists (y :: l'). constructor; assumption.
Qed.

Lemma joined_strs (k : str) (authors : list json) (names : list str) :
  Forall2 (fun d n => getitem d k = Ok (JStr n)) authors names ->
  joined k authors = Ok (join (lit ";") names).
Proof.
  intros H. unfold joined.
  replace (mapM (fun d => getitem d k) authors)
    with (Ok (List.map JStr names)).
  - simpl. apply str_join_strs.
  - symmetry. apply mapM_Ok_Forall2.
    induction H; simpl; constructor; auto.
Qed.

Lemma dedup_incl (l : list json) : incl (dedup l) l.
Proof.
  destruct (dedup_loop_prefix l []) as [t [Ht Hincl]].
  unfold dedup. rewrite Ht. assumption.
Qed.

Lemma extract_clean (authors : list json) :
  Forall clean_author authors ->
  exists nm ai af, extract authors = Ok (Some nm, Some ai, af).
Proof.
  intros H.
  destruct (Forall_exists_Forall2
              (fun d n => getitem d (lit "authname") = Ok (JStr n)) authors)
    as [names Hnames].
  { eapply Forall_impl; [|exact H].
    intros a [d [n [i [ids [-> [Hn _]]]]]]. exists n. simpl.
    rewrite Hn. reflexivity. }
  destruct (Forall_exists_Forall2
              (fun d i => getitem d (lit "authid") = Ok (JStr i)) authors)
    as [ids Hids].
  { eapply Forall_impl; [|exact H].
    intros a [d [n [i [ids [-> [_ [Hi _]]]]]]]. exists i. simpl.
    rewrite Hi. reflexivity. }
  destruct (Forall_exists_Forall2 affiliation_ids authors) as [idss Hidss].
  { eapply Forall_impl; [|exact H].
    intros a [d [n [i [ids' [_ [_ [_ Ha]]]]]]]. exists ids'. assumption. }
  unfold extract.
  rewrite (joined_strs _ _ _ Hnames), (joined_strs _ _ _ Hids). simpl.
  rewrite (mapM_aff_group _ _ Hidss). simpl.
  do 3 eexists. reflexivity.
Qed.

Lemma document_clean (it : json) :
  clean_item it -> exists r, document it = Ok r.
Proof.
  intros [d [-> [Hreq Hauth]]]. unfold document.
  assert (exists t, derive_or_blank (JObj d) = Ok t) as [[[an ai] af] ->].
  { unfold derive_or_blank, derive. simpl.
    destruct Hauth as [->|[l [-> Hl]]]; simpl.
    - eexists. reflexivity.
    - destruct (extract_clean (dedup l)) as [nm [ai [af ->]]].
      + rewrite Forall_forall in *. intros a Ha.
        apply Hl. apply dedup_incl. assumption.
      + eexists. reflexivity. }
  simpl. apply new_doc_total. assumption.
Qed.

(** X4: when every stored item is a dict with the three required keys
    whose ['author'], if it has one, is a list of dicts with a str under
    ['authname'] and ['authid'] and with affiliations that have a str
    under ['$'], [results] returns a record for every item. *)
Theorem results_clean (self : ScopusSearch) :
  Forall clean_item (_json self) ->
  exists recs,
    results self = Ok recs /\
    List.length recs = List.length (_json self).
Proof.
  intros H. destruct (mapM_total document (_json self)) as [recs Hrecs].
  - eapply Forall_impl; [|exact H]. apply document_clean.
  - exists recs. rewrite results_mapM. split; [assumption|].
    eapply mapM_length. eassumption.
Qed.

Lemma smith_clean : clean_author smith.
Proof.
  do 4 eexists. split; [reflexivity|].
  split; [reflexivity|]. split; [reflexivity|]. apply smith_ids.
Qed.

Lemma jones_clean : clean_author jones.
Proof.
  do 4 eexists. split; [reflexivity|].
  split; [reflexivity|]. split; [reflexivity|]. apply jones_ids.
Qed.

Lemma results_clean_witness :
  exists recs,
    results (search [item_pair; item_no_author]) = Ok recs /\
    List.length recs = 2%nat.
Proof.
  apply (results_clean (search [item_pair; item_no_author])).
  constructor; [|constructor; [|constructor]].
  - eexists. split; [reflexivity|]. split; [reflexivity|].
    right. eexists. split; [reflexivity|].
    constructor; [apply smith_clean|].
    constructor; [apply jones_clean|constructor].
  - eexists. split; [reflexivity|]. split; [reflexivity|].
    left. reflexivity.
Defined.

(** ** What a successful extraction holds *)





(** ** When [afid] is [None] *)

Lemma join_nil_iff (sep : str) (l : list str) :
  sep <> [] -> (join sep l = [] <-> l = [] \/ l = [[]]).
Proof.
  intros Hsep. destruct l as [|s [|s' l]]; simpl.
  - split; [left; reflexivity|reflexivity].
  - split.
    + intros ->. right. reflexivity.
    + intros [H|H]; [discriminate|]. injection H as ->. reflexivity.
  - split.
    + intros H. apply app_eq_nil in H as [_ H].
      apply app_eq_nil in H as [H _]. contradiction.
    + intros [H|H]; discriminate.
Qed.

Lemma none_if_empty_None (s : str) : none_if_empty s = None <-> s = [].
Proof.
  rewrite none_if_empty_spec. destruct s; split; congruence.
Qed.

(** X6: after an extraction that goes through, [afid] is [None] exactly
    when the deduplication keeps no author, or keeps one author whose
    group of affiliation ids is the empty string; [afid] is never the empty
    string, while [authname] and [authid] are never [None]. *)
Theorem afid_none_iff (it a : json) (l : list json) (an ai af : option str) :
  getitem it (lit "author") = Ok a ->
  iter a = Ok l ->
  derive it = Ok (an, ai, af) ->
  (af = None <->
   dedup l = [] \/ exists x, dedup l = [x] /\ aff_group x = Ok []) /\
  af <> Some [] /\ an <> None /\ ai <> None.
Proof.
  intros Ha Hl. unfold derive. rewrite Ha. simpl. rewrite Hl. simpl.
  unfold extract.
  destruct (joined (lit "authname") (dedup l)); simpl; [|discriminate].
  destruct (joined (lit "authid") (dedup l)); simpl; [|discriminate].
  destruct (mapM aff_group (dedup l)) as [groups|] eqn:Hg; simpl;
    [|discriminate].
  intros H. injection H as <- <- <-.
  apply mapM_Ok_Forall2 in Hg.
  split; [|split; [|split; discriminate]].
  - rewrite none_if_empty_None, join_nil_iff by discriminate. split.
    + intros [->| ->].
      * inversion Hg. left. reflexivity.
      * inversion Hg as [|x g xs gs Hx Hxs]; subst. inversion Hxs; subst.
        right. exists x. split; [reflexivity|assumption].
    + intros [H|[x [H Hx]]]; rewrite H in Hg.
      * inversion Hg. left. reflexivity.
      * inversion Hg as [|x' g xs gs Hx' Hxs]; subst. inversion Hxs; subst.
        rewrite Hx in Hx'. injection Hx' as <-. right. reflexivity.
  - rewrite none_if_empty_spec. destruct (join (lit ";") groups); discriminate.
Qed.

Lemma afid_none_iff_witness :
  derive item_white = Ok (Some (lit "White N."), Some (lit "7005"), None) /\
  derive item_white_black
  = Ok (Some (lit "White N.;Black O."), Some (lit "7005;7006"),
        Some (lit ";")) /\
  (@None str = None <->
   dedup [white] = [] \/
   exists x, dedup [white] = [x] /\ aff_group x = Ok []).
Proof.
  split; [vm_compute; reflexivity|].
  split; [vm_compute; reflexivity|].
  apply (afid_none_iff item_white (JList [white]) [white]
                       (Some (lit "White N.")) (Some (lit "7005")) None);
    vm_compute; reflexivity.
Defined.

(** ** Deduplicating again *)

Lemma filter_all {A : Type} (f : A -> bool) (l : list A) :
  Forall (fun x => f x = true) l -> filter f l = l.
Proof.
  induction 1 as [|x l Hx _ IH]; simpl; [reflexivity|].
  rewrite Hx, IH. reflexivity.
Qed.

Lemma dedup_distinct (l : list json) :
  ForallOrdPairs (fun y z => py_eq y z = false) l -> dedup l = l.
Proof.
  induction 1 as [|x l Hx _ IH]; [reflexivity|].
  rewrite dedup_cons, filter_all, IH; [reflexivity|].
  eapply Forall_impl; [|exact Hx].
  intros y Hy. simpl in Hy. rewrite Hy. reflexivity.
Qed.

Lemma dedup_loop_length (l acc : list json) :
  (List.length (fold_left dedup_step l acc)
   <= List.length acc + List.length l)%nat.
Proof.
  revert acc. induction l as [|i l IH]; intros acc; simpl; [lia|].
  specialize (IH (dedup_step acc i)). unfold dedup_step in *.
  destruct (negb (py_in i acc)).
  - rewrite length_app in IH. simpl in IH. lia.
  - lia.
Qed.

(** X7: the deduplication of lines 47-50 leaves a list without two equal
    entries as it is, so that deduplicating twice is deduplicating once;
    it never lengthens the list, and it keeps the first entry of a list
    that has one. *)
Theorem dedup_idempotent (l : list json) :
  dedup (dedup l) = dedup l /\
  (ForallOrdPairs (fun y z => py_eq y z = false) l -> dedup l = l) /\
  (List.length (dedup l) <= List.length l)%nat /\
  (forall x l', l = x :: l' -> exists t, dedup l = x :: t).
Proof.
  split; [|split; [|split]].
  - apply dedup_distinct. apply dedup_loop_distinct. constructor.
  - apply dedup_distinct.
  - apply (dedup_loop_length l []).
  - intros x l' ->. rewrite dedup_cons. eexists. reflexivity.
Qed.

(** ** The identifiers and the summary *)

(** X8: when the first stored item without an ['eid'] is a dict,
    [get_eids], [EIDS] and [__str__] all raise [KeyError('eid')]; [EIDS]
    has issued its warning before. *)
Theorem eid_missing_raises (self : ScopusSearch) (pre post : list json)
    (d : list (str * json)) (es : list json) (w : warnings) :
  _json self = pre ++ JObj d :: post ->
  Forall2 (fun it e => getitem it (lit "eid") = Ok e) pre es ->
  lookup (lit "eid") d = None ->
  get_eids self = Raise (KeyError (lit "eid")) /\
  EIDS self w
  = (Raise (KeyError (lit "eid")), w ++ [(EIDS_text, DeprecationWarning)]) /\
  __str__ self = Raise (KeyError (lit "eid")).
Proof.
  intros Hself Hpre Hd.
  assert (get_eids self = Raise (KeyError (lit "eid"))) as H.
  { unfold get_eids. rewrite Hself.
    apply mapM_Raise_at with (ys := es).
    - apply mapM_Ok_Forall2. assumption.
    - simpl. rewrite Hd. reflexivity. }
  split; [assumption|]. split.
  - unfold EIDS, warn. rewrite H. reflexivity.
  - unfold __str__. rewrite H. reflexivity.
Qed.

Lemma eid_missing_raises_witness :
  get_eids (search [item_pair; item_no_eid; item_twice])
  = Raise (KeyError (lit "eid")) /\
  __str__ (search [item_pair; item_no_eid; item_twice])
  = Raise (KeyError (lit "eid")).
Proof.
  destruct (eid_missing_raises
              (search [item_pair; item_no_eid; item_twice])
              [item_pair] [item_twice]
              [(lit "dc:title", text "Tenth"); (lit "openaccess", text "0")]
              [text "2-s2.0-4"] [])
    as [H1 [_ H3]].
  - reflexivity.
  - repeat constructor.
  - reflexivity.
  - split; assumption.
Defined.

Lemma sep_join (sep : str) (es : list str) :
  es <> [] ->
  sep ++ join sep es = List.concat (List.map (fun e => sep ++ e) es).
Proof.
  induction es as [|e [|e' es] IH]; intros Hne.
  - contradiction.
  - simpl. rewrite app_nil_r. reflexivity.
  - change (join sep (e :: e' :: es)) with (e ++ sep ++ join sep (e' :: es)).
    rewrite IH by discriminate.
    change (List.map (fun e0 => sep ++ e0) (e :: e' :: es))
      with ((sep ++ e) :: List.map (fun e0 => sep ++ e0) (e' :: es)).
    rewrite concat_cons, <- app_assoc. reflexivity.
Qed.

(** X9: when every stored item has a str under ['eid'], [__str__] gives
    the text ["Search "], the query, [" yielded in "], the number of
    stored items in decimal digits, [" documents:"], and then each
    identifier on a line of its own after four spaces, in stored order;
    without items the text ends with a line feed and four spaces. *)
Theorem str_summary (self : ScopusSearch) (es : list str) :
  get_eids self = Ok (List.map JStr es) ->
  __str__ self
  = Ok (lit "Search " ++ query self ++ lit " yielded in "
          ++ str_of_nat (List.length (_json self)) ++ lit " documents:"
          ++ match es with
             | [] => line_sep
             | _ => List.concat (List.map (fun e => line_sep ++ e) es)
             end).
Proof.
  intros H. unfold __str__. rewrite H. cbn [bind].
  rewrite str_join_strs. cbn [bind].
  rewrite (mapM_length _ _ _ H).
  destruct es as [|e es'].
  - change (join line_sep []) with (@nil N). rewrite app_nil_r. reflexivity.
  - rewrite (sep_join line_sep (e :: es')) by discriminate. reflexivity.
Qed.

Lemma str_summary_witness :
  __str__ (search two_items)
  = Ok (lit "Search AUTHOR-NAME(Smith) yielded in 2 documents:"
          ++ [10] ++ lit "    2-s2.0-1" ++ [10] ++ lit "    2-s2.0-2").
Proof.
  rewrite (str_summary (search two_items) [lit "2-s2.0-1"; lit "2-s2.0-2"]).
  - vm_compute. reflexivity.
  - vm_compute. reflexivity.
Defined.

Lemma mapM_as_str_Raise (l : list json) :
  Exists (fun v => forall s, v <> JStr s) l ->
  mapM as_str l = Raise TypeError.
Proof.
  induction l as [|v l IH]; intros H; [inversion H|].
  simpl. destruct v as [| | |s| |]; try reflexivity.
  inversion H as [? ? Hv|? ? Hl]; subst.
  - exfalso. apply (Hv s). reflexivity.
  - simpl. rewrite (IH Hl). reflexivity.
Qed.

(** X10: when [get_eids] returns a list in which some ['eid'] is not a
    str, [__str__] raises [TypeError], the one of [join]. *)
Theorem str_type_error (self : ScopusSearch) (es : list json) :
  get_eids self = Ok es ->
  Exists (fun v => forall s, v <> JStr s) es ->
  __str__ self = Raise TypeError.
Proof.
  intros H Hex. unfold __str__, str_join. rewrite H. simpl.
  rewrite (mapM_as_str_Raise es Hex). reflexivity.
Qed.

Lemma str_type_error_witness :
  get_eids (search [item_pair; item_numeric_eid])
  = Ok [text "2-s2.0-4"; JNum 11%Q] /\
  __str__ (search [item_pair; item_numeric_eid]) = Raise TypeError.
Proof.
  split; [reflexivity|].
  apply (str_type_error (search [item_pair; item_numeric_eid])
                        [text "2-s2.0-4"; JNum 11%Q]).
  - reflexivity.
  - right. left. discriminate.
Defined.

(** ** A query that cannot be encoded *)

Lemma utf8_char_Raise (c : N) (e : exn) :
  utf8_char c = Raise e -> e = UnicodeEncodeError.
Proof.
  unfold utf8_char.
  repeat match goal with
         | |- context [if ?b then _ else _] => destruct b
         end;
    intros H; try discriminate; injection H as <-; reflexivity.
Qed.

Lemma utf8_char_surrogate (c : N) :
  0xD800 <= c -> c <= 0xDFFF -> utf8_char c = Raise UnicodeEncodeError.
Proof.
  intros H1 H2. unfold utf8_char.
  destruct (c <? 0x80) eqn:E1; [apply N.ltb_lt in E1; lia|].
  destruct (c <? 0x800) eqn:E2; [apply N.ltb_lt in E2; lia|].
  apply N.leb_le in H1. apply N.leb_le in H2. rewrite H1, H2. reflexivity.
Qed.

Lemma mapM_In_Raise {A B : Type} (f : A -> result B) (l : list A) (x : A)
    (e : exn) :
  In x l -> f x = Raise e -> exists e', mapM f l = Raise e'.
Proof.
  intros Hin Hx. destruct (mapM f l) as [ys|e'] eqn:Hl.
  - apply mapM_Ok_Forall2 in Hl.
    apply in_split in Hin as [l1 [l2 ->]].
    apply Forall2_app_inv_l in Hl as [ys1 [ys2 [_ [Hl2 _]]]].
    inversion Hl2 as [|? y ? ? Hy _]; subst. congruence.
  - exists e'. reflexivity.
Qed.

(** X11: a query that holds a surrogate code point cannot be encoded:
    [qfile] raises [UnicodeEncodeError], and so does the constructor,
    before any page is requested and any cache file is read or written. *)
Theorem surrogate_query_raises (config_dir query : str) (c : N)
    (api : Search.remote) (fuel : nat) (refresh : bool) (w : Search.world) :
  In c query -> 0xD800 <= c -> c <= 0xDFFF ->
  qfile config_dir query = Raise UnicodeEncodeError /\
  __init__ config_dir api fuel query refresh w
  = (Raised UnicodeEncodeError, w).
Proof.
  intros Hin H1 H2.
  assert (qfile config_dir query = Raise UnicodeEncodeError) as Hq.
  { unfold qfile, encode_utf8.
    destruct (mapM_In_Raise utf8_char query c UnicodeEncodeError Hin
                (utf8_char_surrogate c H1 H2)) as [e He].
    rewrite He. simpl.
    apply mapM_Raise_inv in He as [pre [x [post [ys [_ [_ Hx]]]]]].
    apply utf8_char_Raise in Hx. rewrite Hx. reflexivity. }
  split; [assumption|].
  unfold __init__. rewrite Hq. reflexivity.
Qed.

Lemma surrogate_query_raises_witness :
  __init__ (lit "/home/u/.scopus/scopus_search") api_two 10
           (lit "TITLE(" ++ [0xD83D] ++ lit ")") true empty_world
  = (Raised UnicodeEncodeError, empty_world).
Proof.
  apply (surrogate_query_raises (lit "/home/u/.scopus/scopus_search")
           (lit "TITLE(" ++ [0xD83D] ++ lit ")") 0xD83D api_two 10 true
           empty_world).
  - apply in_or_app. right. left. reflexivity.
  - vm_compute. discriminate.
  - vm_compute. discriminate.
Defined.

(** ** The blocks that MD5 hashes *)

Lemma chunks_concat (n : nat) (l : list N) :
  List.length l = (64 * n)%nat ->
  List.concat (List.map (fun i => firstn 64 (skipn (64 * i) l)) (seq 0 n)) = l.
Proof.
  revert l. induction n as [|n IH]; intros l Hl.
  - rewrite Nat.mul_0_r in Hl. apply length_zero_iff_nil in Hl.
    subst. reflexivity.
  - rewrite <- cons_seq, <- seq_shift, map_cons, map_map, concat_cons.
    rewrite Nat.mul_0_r. change (skipn 0 l) with l.
    transitivity (firstn 64 l ++ skipn 64 l); [|apply firstn_skipn].
    f_equal. rewrite <- (IH (skipn 64 l)).
    + f_equal. apply map_ext. intros i.
      rewrite skipn_skipn. f_equal. f_equal. lia.
    + rewrite length_skipn. lia.
Qed.

Lemma chunks_length (n : nat) (l : list N) :
  List.length l = (64 * n)%nat ->
  Forall (fun b => List.length b = 64%nat)
         (List.map (fun i => firstn 64 (skipn (64 * i) l)) (seq 0 n)).
Proof.
  intros Hl. apply Forall_forall. intros b Hb.
  apply in_map_iff in Hb as [i [<- Hi]]. apply in_seq in Hi.
  rewrite length_firstn, length_skipn. lia.
Qed.

Lemma pad_length (m : list N) :
  exists n, List.length (MD5.pad m) = (64 * n)%nat.
Proof.
  unfold MD5.pad. rewrite !length_app, repeat_length, le_bytes_length.
  change (List.length [128]) with 1%nat.
  set (len := List.length m).
  pose proof (Nat.div_mod_eq len 64) as Hdiv.
  pose proof (Nat.mod_upper_bound len 64) as Hr.
  set (r := (len mod 64)%nat) in *. set (q := (len / 64)%nat) in *.
  assert (r < 64)%nat as Hr' by (apply Hr; discriminate). clear Hr.
  destruct (le_lt_dec r 55) as [Hle|Hgt].
  - assert (((64 + 55 - r) mod 64 = 55 - r)%nat) as ->.
    { symmetry. apply (Nat.mod_unique _ 64 1); lia. }
    exists (S q). lia.
  - assert (((64 + 55 - r) mod 64 = 64 + 55 - r)%nat) as ->.
    { apply Nat.mod_small. lia. }
    exists (S (S q)). lia.
Qed.

(** The bytes that MD5 compresses are the bytes of the query
    followed by the padding, cut into blocks of 64 bytes with nothing left
    over: the blocks put together again are the padded message, and the
    padded message begins with the message. *)
Theorem md5_blocks_cover (m : list N) :
  List.concat (MD5.blocks (MD5.pad m)) = MD5.pad m /\
  Forall (fun b => List.length b = 64%nat) (MD5.blocks (MD5.pad m)) /\
  firstn (List.length m) (MD5.pad m) = m /\
  (List.length m + 9 <= List.length (MD5.pad m) <= List.length m + 72)%nat.
Proof.
  destruct (pad_length m) as [n Hn].
  assert ((List.length (MD5.pad m) / 64 = n)%nat) as Hdiv.
  { rewrite Hn, Nat.mul_comm. apply Nat.div_mul. discriminate. }
  unfold MD5.blocks. rewrite Hdiv.
  split; [apply chunks_concat; assumption|].
  split; [apply chunks_length; assumption|].
  split.
  - unfold MD5.pad. rewrite firstn_app, Nat.sub_diag, firstn_all.
    simpl. apply app_nil_r.
  - unfold MD5.pad. rewrite !length_app, repeat_length, le_bytes_length.
    change (List.length [128]) with 1%nat.
    pose proof (Nat.mod_upper_bound
                  (64 + 55 - List.length m mod 64) 64) as H.
    assert (64 <> 0)%nat as H64 by discriminate. specialize (H H64). lia.
Qed.

(** ** An ['author'] that is not a list *)

Lemma joined_head_TypeError (k : str) (x : json) (t : list json) :
  (forall d, x <> JObj d) -> joined k (x :: t) = Raise TypeError.
Proof.
  intros Hx. unfold joined. simpl.
  destruct x; try reflexivity. exfalso. apply (Hx d). reflexivity.
Qed.

(** X12: when the value under ['author'] is not a list, the extraction
    raises [TypeError], which [except KeyError] does not catch, unless the
    value is the empty str or the empty dict; these two are taken as an
    empty author list and give empty [authname] and [authid] and no
    [afid]. *)
Theorem author_not_a_list (it a : json) :
  getitem it (lit "author") = Ok a ->
  isinstance_list a = false ->
  (a = JStr [] \/ a = JObj [] ->
   derive it = Ok (Some [], Some [], None)) /\
  (a <> JStr [] -> a <> JObj [] ->
   derive it = Raise TypeError /\ document it = Raise TypeError).
Proof.
  intros Ha Hnl. split.
  - intros [->| ->]; unfold derive; rewrite Ha; reflexivity.
  - intros H1 H2.
    assert (derive it = Raise TypeError) as Hd.
    { unfold derive. rewrite Ha. cbn [bind].
      destruct a as [|b|q|[|c s]|l|[|[k v] d]]; try reflexivity;
        try discriminate; try contradiction.
      - cbn [iter bind List.map]. rewrite dedup_cons. unfold extract.
        rewrite joined_head_TypeError; [reflexivity|discriminate].
      - cbn [iter bind List.map fst]. rewrite dedup_cons. unfold extract.
        rewrite joined_head_TypeError; [reflexivity|discriminate]. }
    split; [assumption|].
    unfold document.
    rewrite (proj2 (derive_or_blank_Raise it TypeError));
      [reflexivity|]. split; [assumption|discriminate].
Qed.

Lemma author_not_a_list_witness :
  derive (obj [("eid", text "2-s2.0-14"); ("author", text "Smith J.")])
  = Raise TypeError /\
  derive (obj [("eid", text "2-s2.0-15"); ("author", text "")])
  = Ok (Some [], Some [], None).
Proof.
  split.
  - apply (author_not_a_list
             (obj [("eid", text "2-s2.0-14"); ("author", text "Smith J.")])
             (text "Smith J.")); try reflexivity; discriminate.
  - apply (author_not_a_list
             (obj [("eid", text "2-s2.0-15"); ("author", text "")])
             (text "")); try reflexivity. left. reflexivity.
Defined.

(** ** The bytes of a query *)

Lemma utf8_char_length (c : N) (bs : list N) :
  utf8_char c = Ok bs -> (1 <= List.length bs <= 4)%nat.
Proof.
  unfold utf8_char.
  repeat match goal with
         | |- context [if ?b then _ else _] => destruct b
         end;
    intros H; try discriminate; injection H as <-; simpl; lia.
Qed.

Lemma encode_utf8_length (s : str) (bs : list N) :
  encode_utf8 s = Ok bs ->
  (List.length s <= List.length bs <= 4 * List.length s)%nat.
Proof.
  unfold encode_utf8.
  destruct (mapM utf8_char s) as [bss|] eqn:H; simpl; [|discriminate].
  intros E. injection E as <-. apply mapM_Ok_Forall2 in H.
  induction H as [|c b s bss Hc _ IH]; simpl; [lia|].
  rewrite length_app. apply utf8_char_length in Hc. lia.
Qed.

Lemma encode_utf8_ascii (s : str) :
  Forall (fun c => c < 0x80) s -> encode_utf8 s = Ok s.
Proof.
  intros H. unfold encode_utf8.
  replace (mapM utf8_char s) with (Ok (List.map (fun c => [c]) s)).
  - simpl. f_equal. induction s as [|c s IH]; simpl; [reflexivity|].
    inversion H; subst. rewrite IH by assumption. reflexivity.
  - symmetry. apply mapM_Ok_Forall2.
    induction H as [|c s Hc _ IH]; simpl; constructor; [|assumption].
    unfold utf8_char. apply N.ltb_lt in Hc. rewrite Hc. reflexivity.
Qed.

(** X13: a query of ASCII characters is hashed as it is written: its
    cache file is named by the MD5 digest of its characters.  The bytes
    of any query that can be encoded number at least its characters and
    at most four times as many. *)
Theorem qfile_ascii (config_dir query : str) :
  Forall (fun c => c < 0x80) query ->
  qfile config_dir query = Ok (path_join config_dir (MD5.hexdigest query)) /\
  forall query' bs, encode_utf8 query' = Ok bs ->
    (List.length query' <= List.length bs <= 4 * List.length query')%nat.
Proof.
  intros H. split.
  - unfold qfile. rewrite (encode_utf8_ascii query H). reflexivity.
  - apply encode_utf8_length.
Qed.

Lemma qfile_ascii_witness :
  qfile (lit "cache") (lit "AUTHOR-NAME(Smith)")
  = Ok (path_join (lit "cache") (MD5.hexdigest (lit "AUTHOR-NAME(Smith)"))).
Proof.
  apply (qfile_ascii (lit "cache") (lit "AUTHOR-NAME(Smith)")).
  apply Forall_forall. intros c Hc.
  apply N.ltb_lt.
  apply (proj1 (forallb_forall (fun c => c <? 0x80)
                               (lit "AUTHOR-NAME(Smith)")));
    [vm_compute; reflexivity|assumption].
Defined.

(** ** Batches put together *)

(** X14: the records of a list of items put together from two lists are
    the records of the first list followed by those of the second; it maps
    exactly when both lists map. *)
Theorem results_app (self self1 self2 : ScopusSearch)
    (recs : list Document) :
  _json self = _json self1 ++ _json self2 ->
  (results self = Ok recs <->
   exists r1 r2,
     results self1 = Ok r1 /\ results self2 = Ok r2 /\ recs = r1 ++ r2).
Proof.
  intros H. rewrite !results_mapM, H, mapM_app. split.
  - destruct (mapM document (_json self1)) as [r1|]; simpl; [|discriminate].
    destruct (mapM document (_json self2)) as [r2|]; simpl; [|discriminate].
    intros E. injection E as <-. exists r1, r2. repeat split.
  - intros [r1 [r2 [-> [-> ->]]]]. reflexivity.
Qed.

Lemma results_app_witness :
  exists r1 r2,
    results (search [item_pair]) = Ok r1 /\
    results (search [item_twice; item_single]) = Ok r2 /\
    results (search [item_pair; item_twice; item_single]) = Ok (r1 ++ r2).
Proof.
  destruct (results (search [item_pair; item_twice; item_single]))
    as [recs|] eqn:E; [|vm_compute in E; discriminate].
  destruct (proj1 (results_app
                     (search [item_pair; item_twice; item_single])
                     (search [item_pair])
                     (search [item_twice; item_single]) recs eq_refl) E)
    as [r1 [r2 [H1 [H2 ->]]]].
  exists r1, r2. repeat split; assumption.
Defined.
